(** * The voice pipeline: capture, transcription with fallback, relay, form controller

    A shallow embedding of

    - [lib/voiceAPI.ts] in its two versions (the provider version with the
      OpenAI and Gemini adapters, and the relay version that posts to the
      local relay),
    - the relay server [src/server/index.ts] ([POST /chat]),
    - the voice handlers of [VoiceIntakeForm] ([startListening],
      [stopListening], the auto-stop timer),

    followed by the properties proved of them.

    The code is TypeScript over [any]-typed JSON, so the values it handles
    are modelled as JavaScript values, with the operators the code applies
    to them ([||], [!], property reads, [?.], template literals).  What the
    browser, the network and the JavaScript engine decide is an argument of
    the model: the outcome of [fetch], of [getUserMedia], the events a
    [MediaRecorder] fires, and the few engine functions whose result the
    code only passes along (class [Engine]). *)

From Stdlib Require Import String Ascii List Bool Arith ZArith QArith Lia.
From Stdlib Require Import DecimalString Qround.
Import ListNotations.
Close Scope Q_scope.
Open Scope string_scope.
Set Warnings "-register-all".

(* ===================================================================== *)
(** ** JavaScript values *)
(* ===================================================================== *)

Module JS.

(** A JavaScript string is a sequence of UTF-16 code units.  The model's
    [string] is a sequence of 8-bit characters, read as the code units
    0..255.  The string literals of the modelled code are ASCII, but for
    the mark that opens the form's success notices, which is kept as the
    bytes of its UTF-8 form. *)

(** Values: what [JSON.parse] produces, and [undefined].  A number holds
    the value of the double it denotes; [JSON.parse] produces neither NaN
    nor an infinity. *)
Inductive value : Type :=
  | VUndef
  | VNull
  | VBool (b : bool)
  | VNum (q : Q)
  | VStr (s : string)
  | VArr (xs : list value)
  | VObj (fields : list (string * value)).

(** A thrown [Error]: the code only ever reads its [message]. *)
Record exn : Type := Error { message : string }.

(** The outcome of an expression that can throw. *)
Definition throws (A : Type) : Type := (exn + A)%type.

(** What the engine decides and the code passes along unchanged. *)
Class Engine : Type := {
  (** [Number::toString] of a number that is not an integer below 1e21 *)
  fraction_to_string : Q -> string;
  (** [StringToNumber(s) > 0] *)
  string_gt_zero : string -> bool;
  (** message of the [TypeError] of reading property [k] of [null] or
      [undefined] *)
  nullish_read_message : value -> string -> string;
  (** message of the [TypeError] of calling [v.k] when it is not a function *)
  not_a_function_message : value -> string -> string;
  (** [btoa(String.fromCharCode(...bytes))]: the base64 text, or the
      [RangeError] of a spread beyond the engine's argument limit *)
  btoa_spread : list Byte.byte -> throws string;
  (** [Math.round(c * 100)] in a template literal *)
  round_percent : value -> string;
  (** [MediaRecorder.stop()] on an inactive recorder: the message of the
      [InvalidStateError] it throws, or [None] where it does nothing *)
  stop_inactive_error : option string;
  (** [FileReader.readAsDataURL] of a blob of the given type and bytes:
      the data URL, or [None] when the reader fires [error] *)
  read_as_data_url : string -> list Byte.byte -> option string;
}.

(** [!!v] *)
Definition truthy (v : value) : bool :=
  match v with
  | VUndef | VNull => false
  | VBool b => b
  | VNum q => negb (Qnum q =? 0)%Z
  | VStr s => negb (s =? "")
  | VArr _ | VObj _ => true
  end.

(** [a || b] *)
Definition or (a b : value) : value := if truthy a then a else b.

Definition nullish (v : value) : bool :=
  match v with VUndef | VNull => true | _ => false end.

(** Own property [k] of an object literal. *)
Fixpoint assoc (k : string) (fields : list (string * value)) : value :=
  match fields with
  | [] => VUndef
  | (k', v) :: rest => if k =? k' then v else assoc k rest
  end.

Definition of_nat (n : nat) : value := VNum (inject_Z (Z.of_nat n)).

Definition string_of_nat (n : nat) : string :=
  NilZero.string_of_uint (Nat.to_uint n).

Section WithEngine.
Context {E : Engine}.

(** [v.k] for the property names the code reads ([text], [error],
    [message], [results], [alternatives], [transcript], [confidence],
    [response], [audioBase64], [length]): none of them is inherited from a
    prototype, so only own properties and [length] answer. *)
Definition get (v : value) (k : string) : throws value :=
  match v with
  | VUndef | VNull => inl (Error (nullish_read_message v k))
  | VObj fields => inr (assoc k fields)
  | VArr xs => inr (if k =? "length" then of_nat (List.length xs) else VUndef)
  | VStr s => inr (if k =? "length" then of_nat (String.length s) else VUndef)
  | VBool _ | VNum _ => inr VUndef
  end.

(** [v[i]] for a literal index [i]; never applied to [null] or [undefined]
    by the code (the receiver has just been tested truthy). *)
Definition index (v : value) (i : nat) : value :=
  match v with
  | VArr xs => nth i xs VUndef
  | VStr s => match String.get i s with
              | Some c => VStr (String c "")
              | None => VUndef
              end
  | VObj fields => assoc (string_of_nat i) fields
  | _ => VUndef
  end.

(** [v?.k] *)
Definition get_opt (v : value) (k : string) : throws value :=
  if nullish v then inr VUndef else get v k.

(** [Number::toString]: integers below 1e21 print in plain decimal. *)
Definition number_to_string (q : Q) : string :=
  let r := Qred q in
  if ((Qden r =? 1)%positive && (Z.abs (Qnum r) <? 10 ^ 21)%Z)%bool
  then NilZero.string_of_int (Z.to_int (Qnum r))
  else fraction_to_string q.

Definition join (parts : list string) : string := String.concat "," parts.

(** [String(v)], as a template literal applies it. *)
Fixpoint to_string (v : value) : string :=
  match v with
  | VUndef => "undefined"
  | VNull => "null"
  | VBool true => "true"
  | VBool false => "false"
  | VNum q => number_to_string q
  | VStr s => s
  | VArr xs =>
      join (map (fun x => if nullish x then "" else to_string x) xs)
  | VObj _ => "[object Object]"
  end.

(** [v > 0] *)
Definition gt_zero (v : value) : bool :=
  match v with
  | VUndef | VNull => false
  | VBool b => b
  | VNum q => (0 <? Qnum q)%Z
  | VStr s => string_gt_zero s
  | VArr _ | VObj _ => string_gt_zero (to_string v)
  end.

End WithEngine.

(** White space and line terminators among the code units below 256:
    TAB, LF, VT, FF, CR, SP, NBSP. *)
Definition is_space (c : ascii) : bool :=
  let n := nat_of_ascii c in
  (((9 <=? n) && (n <=? 13)) || (n =? 32) || (n =? 160))%nat.

Fixpoint trim_start (s : string) : string :=
  match s with
  | String c rest => if is_space c then trim_start rest else s
  | EmptyString => EmptyString
  end.

(** Drops the white space at the end: a character stays when it is not
    white space or when something stays after it. *)
Fixpoint trim_end (s : string) : string :=
  match s with
  | EmptyString => EmptyString
  | String c rest =>
      match trim_end rest with
      | EmptyString => if is_space c then EmptyString else String c EmptyString
      | kept => String c kept
      end
  end.

(** [String.prototype.trim] *)
Definition trim (s : string) : string := trim_end (trim_start s).

(** [v.trim()]: a string answers; any other receiver has no [trim], and
    the call throws. *)
Definition call_trim {E : Engine} (v : value) : throws value :=
  match v with
  | VStr s => inr (VStr (trim s))
  | VUndef | VNull => inl (Error (nullish_read_message v "trim"))
  | _ => inl (Error (not_a_function_message v "trim"))
  end.

(** [s.split(sep)] for a one-character separator. *)
Fixpoint split (sep : ascii) (s : string) : list string :=
  match s with
  | EmptyString => [EmptyString]
  | String c rest =>
      if Ascii.eqb c sep then EmptyString :: split sep rest
      else match split sep rest with
           | piece :: more => String c piece :: more
           | [] => [String c EmptyString]
           end
  end.

(** *** [JSON.stringify] *)

Definition dquote : ascii := ascii_of_nat 34.
Definition backslash : ascii := ascii_of_nat 92.

Definition hex_digit (n : nat) : ascii :=
  if (n <? 10)%nat then ascii_of_nat (48 + n) else ascii_of_nat (87 + n).

(** [QuoteJSONString], one code unit. *)
Definition quote_char (c : ascii) : string :=
  let n := nat_of_ascii c in
  if (n =? 34)%nat then String backslash (String dquote "")
  else if (n =? 92)%nat then "\\"
  else if (n =? 8)%nat then "\b"
  else if (n =? 12)%nat then "\f"
  else if (n =? 10)%nat then "\n"
  else if (n =? 13)%nat then "\r"
  else if (n =? 9)%nat then "\t"
  else if (n <? 32)%nat then
    "\u00" ++ String (hex_digit (n / 16)) (String (hex_digit (n mod 16)) "")
  else String c "".

Fixpoint quote_chars (s : string) : string :=
  match s with
  | EmptyString => EmptyString
  | String c rest => quote_char c ++ quote_chars rest
  end.

Definition quote (s : string) : string :=
  String dquote (quote_chars s ++ String dquote "").

Section Stringify.
Context {E : Engine}.

(** [JSON.stringify(v)]: [None] is [undefined].  A member whose value is
    [undefined] is left out of an object and printed [null] in an array.
    An object lists its properties, each name once, in property order. *)
Fixpoint stringify (v : value) : option string :=
  match v with
  | VUndef => None
  | VNull => Some "null"
  | VBool true => Some "true"
  | VBool false => Some "false"
  | VNum q => Some (number_to_string q)
  | VStr s => Some (quote s)
  | VArr xs =>
      let fix elements (l : list value) : list string :=
        match l with
        | [] => []
        | x :: rest =>
            match stringify x with
            | Some t => t
            | None => "null"
            end :: elements rest
        end in
      Some ("[" ++ join (elements xs) ++ "]")
  | VObj fields =>
      let fix members (l : list (string * value)) : list string :=
        match l with
        | [] => []
        | (k, x) :: rest =>
            match stringify x with
            | Some t => (quote k ++ ":" ++ t) :: members rest
            | None => members rest
            end
        end in
      Some ("{" ++ join (members fields) ++ "}")
  end.

End Stringify.

End JS.

(* ===================================================================== *)
(** ** Blobs, requests and the network *)
(* ===================================================================== *)

Module Net.
Import JS.

Record Blob : Type := { blob_type : string; blob_data : list Byte.byte }.

Definition size (b : Blob) : nat := List.length (blob_data b).

Inductive FormValue : Type :=
  | FormText (s : string)
  | FormFile (file : Blob) (filename : string).

Inductive Body : Type :=
  | FormDataBody (parts : list (string * FormValue))
  | TextBody (s : string)
  | NoBody.

Record Request : Type := {
  url : string;
  method : string;
  headers : list (string * string);
  body : Body;
}.

(** A response, as far as the code reads it: [json] is what
    [response.json()] settles to (thrown when the body is not JSON). *)
Record Response : Type := {
  status : nat;
  statusText : string;
  json : throws value;
}.

(** [response.ok] *)
Definition ok (r : Response) : bool :=
  ((200 <=? status r) && (status r <=? 299))%nat.

(** What [fetch] settles to for each request: a response, or the error it
    rejects with. *)
Definition Network : Type := Request -> throws Response.

(** Computations that throw and issue requests; the log holds the requests
    issued so far, oldest first. *)
Definition Eff (A : Type) : Type := list Request -> throws A * list Request.

Definition ret {A} (a : A) : Eff A := fun log => (inr a, log).

Definition throw {A} (e : exn) : Eff A := fun log => (inl e, log).

Definition bind {A B} (m : Eff A) (k : A -> Eff B) : Eff B :=
  fun log =>
    match m log with
    | (inr a, log') => k a log'
    | (inl e, log') => (inl e, log')
    end.

(** [try { m } catch (e) { handler e }] *)
Definition try_catch {A} (m : Eff A) (handler : exn -> Eff A) : Eff A :=
  fun log =>
    match m log with
    | (inr a, log') => (inr a, log')
    | (inl e, log') => handler e log'
    end.

Definition lift {A} (r : throws A) : Eff A := fun log => (r, log).

(** [await fetch(...)] *)
Definition fetch (net : Network) (req : Request) : Eff Response :=
  fun log => (net req, (log ++ [req])%list).

(** [await p.catch(() => fallback)] *)
Definition or_else {A} (r : throws A) (fallback : A) : A :=
  match r with
  | inr a => a
  | inl _ => fallback
  end.

Definition body_of_json {E : Engine} (v : value) : Body :=
  match stringify v with
  | Some s => TextBody s
  | None => NoBody
  end.

End Net.

Declare Scope eff_scope.
Delimit Scope eff_scope with eff.
Notation "x <- m ;; k" := (Net.bind m (fun x => k))
  (at level 61, m at next level, right associativity) : eff_scope.

(* ===================================================================== *)
(** ** Microphone streams and recorders *)
(* ===================================================================== *)

Module Media.
Import JS Net.

(** [l[i] = f(l[i])]; nothing changes out of range. *)
Fixpoint update {A} (i : nat) (f : A -> A) (l : list A) : list A :=
  match l, i with
  | [], _ => []
  | x :: rest, O => f x :: rest
  | x :: rest, S j => x :: update j f rest
  end.

Inductive RecordingState : Type := Inactive | Recording.

(** A [MediaRecorder] object.  [stream] lists the tracks of its stream;
    [stopping] holds between [stop()] (or an error) and the [stop] event
    that ends the recorder; [onstop] and [onerror] hold the promise whose
    [resolve] and [reject] the installed handler closes over. *)
Record MediaRecorder : Type := {
  stream : list nat;
  mimeType : string;
  state : RecordingState;
  stopping : bool;
  ondataavailable : bool;
  onstop : option nat;
  onerror : option nat;
}.

(** The fields of [class VoiceAPIService] (both versions); [mediaRecorder]
    is a reference into [recorders]. *)
Record VoiceAPIService : Type := {
  mediaRecorder : option nat;
  audioChunks : list Blob;
  isRecording : bool;
}.

(** The singleton service and the browser objects it has created:
    [tracks] holds, per track, the number of [stop()] calls it received;
    [promises] holds, per promise returned by [stopRecording], what it
    settled to ([None] while pending). *)
Record System : Type := {
  service : VoiceAPIService;
  tracks : list nat;
  recorders : list MediaRecorder;
  promises : list (option (throws Blob));
}.

Definition initial : System :=
  {| service := {| mediaRecorder := None; audioChunks := []; isRecording := false |};
     tracks := [];
     recorders := [];
     promises := [] |}.

Definition set_service (s : System) (v : VoiceAPIService) : System :=
  {| service := v; tracks := tracks s; recorders := recorders s;
     promises := promises s |}.

Definition set_recorder (s : System) (r : nat) (f : MediaRecorder -> MediaRecorder)
  : System :=
  {| service := service s; tracks := tracks s;
     recorders := update r f (recorders s); promises := promises s |}.

(** [track.stop()] *)
Definition stop_track (t : nat) (ts : list nat) : list nat := update t S ts.

(** [stream.getTracks().forEach(track => track.stop())] *)
Definition stop_tracks (ids : list nat) (ts : list nat) : list nat :=
  fold_left (fun acc t => stop_track t acc) ids ts.

(** A stream of [n] fresh tracks, as [getUserMedia] resolves to. *)
Definition open_stream (n : nat) (s : System) : System * list nat :=
  ({| service := service s; tracks := (tracks s ++ repeat 0 n)%list;
      recorders := recorders s; promises := promises s |},
   seq (List.length (tracks s)) n).

(** [resolve(v)] or [reject(e)] of promise [p]: the first one settles it. *)
Definition settle (p : nat) (v : throws Blob) (s : System) : System :=
  {| service := service s; tracks := tracks s; recorders := recorders s;
     promises := update p (fun old => match old with
                                      | None => Some v
                                      | Some _ => old
                                      end) (promises s) |}.

(** [new Promise(...)]: returns the promise's index. *)
Definition new_promise (s : System) : System * nat :=
  ({| service := service s; tracks := tracks s; recorders := recorders s;
      promises := (promises s ++ [None])%list |},
   List.length (promises s)).

(** The type a [Blob] constructor keeps: lower case, or empty when a
    character lies outside U+0020..U+007E. *)
Definition lower (c : ascii) : ascii :=
  let n := nat_of_ascii c in
  if ((65 <=? n) && (n <=? 90))%nat then ascii_of_nat (n + 32) else c.

Fixpoint lowercase (s : string) : string :=
  match s with
  | EmptyString => EmptyString
  | String c rest => String (lower c) (lowercase rest)
  end.

Fixpoint printable (s : string) : bool :=
  match s with
  | EmptyString => true
  | String c rest =>
      ((32 <=? nat_of_ascii c) && (nat_of_ascii c <=? 126))%nat && printable rest
  end.

Definition blob_type_of (type : string) : string :=
  if printable type then lowercase type else "".

(** [new Blob(chunks, { type })] *)
Definition new_Blob (chunks : list Blob) (type : string) : Blob :=
  {| blob_type := blob_type_of type;
     blob_data := concat (map blob_data chunks) |}.

(** What the browser decides during one [startRecording] call.  A browser
    without [MediaRecorder] is one whose [isTypeSupported] answers [false]
    throughout and whose [not_supported] is the [ReferenceError]. *)
Record StartEnv : Type := {
  (** [getUserMedia]: the number of tracks of the stream, or the error *)
  getUserMedia : throws nat;
  (** [MediaRecorder.isTypeSupported] *)
  isTypeSupported : string -> bool;
  (** the [NotSupportedError] of [new MediaRecorder] for an unsupported type *)
  not_supported : exn;
  (** what [recorder.start] throws, if it throws *)
  start_error : option exn;
}.

(** [new MediaRecorder(stream, { mimeType })]: throws for an unsupported
    type, else the new recorder's index. *)
Definition new_MediaRecorder (env : StartEnv) (tracks_of_stream : list nat)
    (type : string) (s : System) : throws (System * nat) :=
  if isTypeSupported env type then
    inr ({| service := service s; tracks := tracks s;
            recorders := (recorders s ++
                          [{| stream := tracks_of_stream; mimeType := type;
                              state := Inactive; stopping := false;
                              ondataavailable := false; onstop := None;
                              onerror := None |}])%list;
            promises := promises s |},
         List.length (recorders s))
  else inl (not_supported env).

Definition set_ondataavailable (m : MediaRecorder) : MediaRecorder :=
  {| stream := stream m; mimeType := mimeType m; state := state m;
     stopping := stopping m; ondataavailable := true; onstop := onstop m;
     onerror := onerror m |}.

Definition set_onstop (p : nat) (m : MediaRecorder) : MediaRecorder :=
  {| stream := stream m; mimeType := mimeType m; state := state m;
     stopping := stopping m; ondataavailable := ondataavailable m;
     onstop := Some p; onerror := onerror m |}.

Definition set_onerror (p : nat) (m : MediaRecorder) : MediaRecorder :=
  {| stream := stream m; mimeType := mimeType m; state := state m;
     stopping := stopping m; ondataavailable := ondataavailable m;
     onstop := onstop m; onerror := Some p |}.

Definition set_state (st : RecordingState) (stop_pending : bool) (m : MediaRecorder)
  : MediaRecorder :=
  {| stream := stream m; mimeType := mimeType m; state := st;
     stopping := stop_pending; ondataavailable := ondataavailable m;
     onstop := onstop m; onerror := onerror m |}.

(** [this.mediaRecorder.start(...)] on a new recorder. *)
Definition recorder_start (env : StartEnv) (r : nat) (s : System) : throws System :=
  match start_error env with
  | Some e => inl e
  | None => inr (set_recorder s r (set_state Recording false))
  end.

(** [recorder.stop()]: an active recorder becomes inactive and owes its
    last [dataavailable] and its [stop] event. *)
Definition recorder_stop {E : Engine} (r : nat) (s : System) : throws System :=
  match nth_error (recorders s) r with
  | Some m =>
      match state m with
      | Recording => inr (set_recorder s r (set_state Inactive true))
      | Inactive =>
          match stop_inactive_error with
          | Some msg => inl (Error msg)
          | None => inr s
          end
      end
  | None => inr s
  end.

(** The [ondataavailable] handler of both versions. *)
Definition on_dataavailable (data : Blob) (s : System) : System :=
  if (0 <? size data)%nat then
    set_service s {| mediaRecorder := mediaRecorder (service s);
                     audioChunks := (audioChunks (service s) ++ [data])%list;
                     isRecording := isRecording (service s) |}
  else s.

(** The [onstop] handler of both versions, closing over [resolve] of
    promise [p].  It reads [this.mediaRecorder] when it runs. *)
Definition on_stop (p : nat) (s : System) : System :=
  match mediaRecorder (service s) with
  | Some current =>
      match nth_error (recorders s) current with
      | Some m =>
          let audioBlob := new_Blob (audioChunks (service s)) (mimeType m) in
          settle p (inr audioBlob)
            {| service := {| mediaRecorder := mediaRecorder (service s);
                             audioChunks := audioChunks (service s);
                             isRecording := false |};
               tracks := stop_tracks (stream m) (tracks s);
               recorders := recorders s;
               promises := promises s |}
      | None => s
      end
  | None => s
  end.

(** The [onerror] handler of the provider version; [shown] is
    [`${event.error}`]. *)
Definition on_error (p : nat) (shown : string) (s : System) : System :=
  settle p (inl (Error ("Recording error: " ++ shown))) s.

(** What a recorder fires. *)
Inductive Event : Type :=
  | DataAvailable (r : nat) (data : Blob)
  | Stopped (r : nat)
  | RecorderError (r : nat) (shown : string).

(** Delivery of an event to the handlers installed; [None] when the
    recorder cannot fire it: data comes from a recorder that records or is
    stopping, [stop] ends a stopping recorder, an error interrupts a
    recording one (which then stops). *)
Definition fire (ev : Event) (s : System) : option System :=
  match ev with
  | DataAvailable r data =>
      match nth_error (recorders s) r with
      | Some m =>
          match state m, stopping m with
          | Inactive, false => None
          | _, _ => Some (if ondataavailable m then on_dataavailable data s else s)
          end
      | None => None
      end
  | Stopped r =>
      match nth_error (recorders s) r with
      | Some m =>
          if stopping m then
            let s' := set_recorder s r (set_state Inactive false) in
            Some (match onstop m with
                  | Some p => on_stop p s'
                  | None => s'
                  end)
          else None
      | None => None
      end
  | RecorderError r shown =>
      match nth_error (recorders s) r with
      | Some m =>
          match state m with
          | Recording =>
              let s' := set_recorder s r (set_state Inactive true) in
              Some (match onerror m with
                    | Some p => on_error p shown s'
                    | None => s'
                    end)
          | Inactive => None
          end
      | None => None
      end
  end.

(** Installing a handler changes neither the stream nor the state of a
    recorder. *)
Definition keeps_state (f : MediaRecorder -> MediaRecorder) : Prop :=
  forall m, stream (f m) = stream m /\ state (f m) = state m
            /\ stopping (f m) = stopping m.

Definition is_recording (m : MediaRecorder) : bool :=
  match state m with
  | Recording => true
  | Inactive => false
  end.

(** The recorders that are recording: the recording streams that are
    open. *)
Definition recording_recorders (s : System) : list MediaRecorder :=
  filter is_recording (recorders s).

(** A track is live until it is stopped. *)
Definition live_tracks (s : System) : nat :=
  List.length (filter (fun stops => (stops =? 0)%nat) (tracks s)).

End Media.

(* ===================================================================== *)
(** ** [lib/voiceAPI.ts], provider version: capture and transcription *)
(* ===================================================================== *)

Module VoiceAPI.
Import JS Net Media.
Open Scope eff_scope.

(** *** Capture *)

(** [requestMicrophonePermission]: the probe stream is stopped at once;
    a rejected [getUserMedia] answers [false].  So does a browser that has
    no [MediaRecorder] ([recorder_defined] false): the test of
    [MediaRecorder.isTypeSupported] throws before the probe is stopped,
    and the [catch] answers. *)
Definition requestMicrophonePermission (probe : throws nat) (recorder_defined : bool)
    (s : System) : System * bool :=
  match probe with
  | inr n =>
      let (s1, probe_tracks) := open_stream n s in
      if recorder_defined then
        ({| service := service s1; tracks := stop_tracks probe_tracks (tracks s1);
            recorders := recorders s1; promises := promises s1 |}, true)
      else (s1, false)
  | inl _ => (s, false)
  end.

(** "Choose the best supported audio format" *)
Definition choose_mimeType (env : StartEnv) : string :=
  if isTypeSupported env "audio/webm;codecs=opus" then "audio/webm;codecs=opus"
  else if isTypeSupported env "audio/mp4" then "audio/mp4"
  else if isTypeSupported env "audio/wav" then "audio/wav"
  else "audio/webm".

(** [startRecording]: the state after the call, and what the call throws.
    The call runs to its end before anything else happens. *)
Definition startRecording (env : StartEnv) (s : System) : System * throws unit :=
  if isRecording (service s) then (s, inl (Error "Already recording"))
  else
    match getUserMedia env with
    | inl e => (s, inl e)
    | inr n =>
        let (s1, stream_tracks) := open_stream n s in
        match new_MediaRecorder env stream_tracks (choose_mimeType env) s1 with
        | inl e => (s1, inl e)
        | inr (s2, r) =>
            let s3 := set_service s2 {| mediaRecorder := Some r;
                                        audioChunks := [];
                                        isRecording := isRecording (service s2) |} in
            let s4 := set_recorder s3 r set_ondataavailable in
            match recorder_start env r s4 with
            | inl e => (s4, inl e)
            | inr s5 =>
                (set_service s5 {| mediaRecorder := mediaRecorder (service s5);
                                   audioChunks := audioChunks (service s5);
                                   isRecording := true |}, inr tt)
            end
        end
    end.

(** [stopRecording]: the state after the call and the promise it returns.
    The promise is settled at once when nothing is recording or when
    [stop()] throws inside the executor, and by the [stop] (or [error])
    event otherwise. *)
Definition stopRecording {E : Engine} (s : System) : System * nat :=
  let (s1, p) := new_promise s in
  match mediaRecorder (service s1), isRecording (service s1) with
  | Some r, true =>
      let s2 := set_recorder s1 r (set_onstop p) in
      let s3 := set_recorder s2 r (set_onerror p) in
      match recorder_stop r s3 with
      | inr s4 => (s4, p)
      | inl e => (settle p (inl e) s3, p)
      end
  | _, _ => (settle p (inl (Error "Not currently recording")) s1, p)
  end.

Definition isCurrentlyRecording (s : System) : bool := isRecording (service s).

(** What can happen to the provider version of the service: a call of one
    of its methods, or an event of one of its recorders. *)
Inductive Action : Type :=
  | RequestPermission (probe : throws nat) (recorder_defined : bool)
  | Start (env : StartEnv)
  | Stop
  | Fire (ev : Event).

Definition step {E : Engine} (a : Action) (s : System) : option System :=
  match a with
  | RequestPermission probe known =>
      Some (fst (requestMicrophonePermission probe known s))
  | Start env => Some (fst (startRecording env s))
  | Stop => Some (fst (stopRecording s))
  | Fire ev => fire ev s
  end.

(** The state after a sequence of actions, [None] when one of them cannot
    happen. *)
Fixpoint run {E : Engine} (actions : list Action) (s : System) : option System :=
  match actions with
  | [] => Some s
  | a :: rest =>
      match step a s with
      | Some s' => run rest s'
      | None => None
      end
  end.



(** *** Transcription *)

(** [VOICE_API_CONFIG]: an [apiKey] read from the build environment is a
    string or [undefined] ([None]). *)
Record ProviderConfig : Type := { apiKey : option string; endpoint : string }.

Record VoiceApiConfig : Type := {
  openai : ProviderConfig;
  gemini : ProviderConfig;
}.

Definition VOICE_API_CONFIG (VITE_OPENAI_API_KEY VITE_GEMINI_API_KEY : option string)
  : VoiceApiConfig :=
  {| openai := {| apiKey := VITE_OPENAI_API_KEY;
                  endpoint := "https://api.openai.com/v1/audio/transcriptions" |};
     gemini := {| apiKey := VITE_GEMINI_API_KEY;
                  endpoint := "https://speech.googleapis.com/v1/speech:recognize" |} |}.

(** The key when [!apiKey] is false. *)
Definition present (key : option string) : option string :=
  match key with
  | Some k => if k =? "" then None else Some k
  | None => None
  end.

(** [VoiceTranscriptionResult]; an absent property is [VUndef]. *)
Record VoiceTranscriptionResult : Type := {
  text : value;
  confidence : value;
  error : value;
}.

Definition failure (msg : string) : VoiceTranscriptionResult :=
  {| text := VStr ""; confidence := VUndef; error := VStr msg |}.

(** What an adapter returns either has no [error], or is a failure: an
    empty [text] with a message that is not empty. *)
Definition well_formed (r : VoiceTranscriptionResult) : Prop :=
  error r = VUndef \/ exists msg, msg <> "" /\ r = failure msg.

Inductive Service : Type := OpenAI | Gemini.

Definition other (s : Service) : Service :=
  match s with OpenAI => Gemini | Gemini => OpenAI end.

Definition openai_not_configured : string :=
  "OpenAI API key not configured. Please add VITE_OPENAI_API_KEY to your environment variables.".

Definition gemini_not_configured : string :=
  "Gemini API key not configured. Please add VITE_GEMINI_API_KEY to your environment variables.".

Section WithEngine.
Context {E : Engine}.

(** The [if (!response.ok)] branch shared by both adapters. *)
Definition throw_api_error {A} (provider : string) (response : Response) : Eff A :=
  let errorData := or_else (json response) (VObj []) in
  err <- lift (get errorData "error") ;;
  msg <- lift (get_opt err "message") ;;
  throw (Error (provider ++ " API error: " ++ string_of_nat (status response)
                ++ " - " ++ to_string (or msg (VStr (statusText response))))).

(** [error.message || fallback] *)
Definition message_or (e : exn) (fallback : string) : string :=
  if message e =? "" then fallback else message e.

(** The request of [transcribeWithOpenAI]. *)
Definition openai_request (cfg : VoiceApiConfig) (key : string) (audioBlob : Blob)
  : Request :=
  {| url := endpoint (openai cfg);
     method := "POST";
     headers := [("Authorization", "Bearer " ++ key)];
     body := FormDataBody [("file", FormFile audioBlob "audio.webm");
                           ("model", FormText "whisper-1");
                           ("language", FormText "en")] |}.

Definition transcribeWithOpenAI (cfg : VoiceApiConfig) (net : Network) (audioBlob : Blob)
  : Eff VoiceTranscriptionResult :=
  match present (apiKey (openai cfg)) with
  | None => ret (failure openai_not_configured)
  | Some key =>
      try_catch
        (response <- fetch net (openai_request cfg key audioBlob) ;;
         if negb (ok response) then throw_api_error "OpenAI" response
         else
           data <- lift (json response) ;;
           t <- lift (get data "text") ;;
           ret {| text := or t (VStr ""); confidence := VNum 1; error := VUndef |})
        (fun e => ret (failure (message_or e "Failed to transcribe audio with OpenAI")))
  end.

Definition gemini_request_body (base64Audio : string) : value :=
  VObj [("config", VObj [("encoding", VStr "WEBM_OPUS");
                         ("sampleRateHertz", VNum (inject_Z 16000));
                         ("languageCode", VStr "en-US");
                         ("enableAutomaticPunctuation", VBool true)]);
        ("audio", VObj [("content", VStr base64Audio)])].

(** The request of [transcribeWithGemini]. *)
Definition gemini_request (cfg : VoiceApiConfig) (key base64Audio : string) : Request :=
  {| url := endpoint (gemini cfg) ++ "?key=" ++ key;
     method := "POST";
     headers := [("Content-Type", "application/json")];
     body := body_of_json (gemini_request_body base64Audio) |}.

(** The part of [transcribeWithGemini] after [const data = await
    response.json()]. *)
Definition gemini_result (data : value) : Eff VoiceTranscriptionResult :=
  let no_results := ret (failure "No transcription results from Gemini") in
  results <- lift (get data "results") ;;
  if truthy results then
    len <- lift (get results "length") ;;
    if gt_zero len then
      let result := index results 0 in
      alternatives <- lift (get result "alternatives") ;;
      if truthy alternatives then
        len' <- lift (get alternatives "length") ;;
        if gt_zero len' then
          transcript <- lift (get (index alternatives 0) "transcript") ;;
          conf <- lift (get (index alternatives 0) "confidence") ;;
          ret {| text := or transcript (VStr "");
                 confidence := or conf (VNum (1 # 2));
                 error := VUndef |}
        else no_results
      else no_results
    else no_results
  else no_results.

Definition transcribeWithGemini (cfg : VoiceApiConfig) (net : Network) (audioBlob : Blob)
  : Eff VoiceTranscriptionResult :=
  match present (apiKey (gemini cfg)) with
  | None => ret (failure gemini_not_configured)
  | Some key =>
      try_catch
        (base64Audio <- lift (btoa_spread (blob_data audioBlob)) ;;
         response <- fetch net (gemini_request cfg key base64Audio) ;;
         if negb (ok response) then throw_api_error "Gemini" response
         else
           data <- lift (json response) ;;
           gemini_result data)
        (fun e => ret (failure (message_or e "Failed to transcribe audio with Gemini")))
  end.

Definition provider (cfg : VoiceApiConfig) (s : Service) : ProviderConfig :=
  match s with
  | OpenAI => openai cfg
  | Gemini => gemini cfg
  end.

Definition not_configured (s : Service) : string :=
  match s with
  | OpenAI => openai_not_configured
  | Gemini => gemini_not_configured
  end.

(** The adapter of a service. *)
Definition adapter (s : Service) : VoiceApiConfig -> Network -> Blob -> Eff VoiceTranscriptionResult :=
  match s with
  | OpenAI => transcribeWithOpenAI
  | Gemini => transcribeWithGemini
  end.

(** The requests that the adapter of a service sends. *)
Definition request_of (cfg : VoiceApiConfig) (audioBlob : Blob) (s : Service)
    (req : Request) : Prop :=
  match s with
  | OpenAI => exists key, req = openai_request cfg key audioBlob
  | Gemini => exists key base64Audio, req = gemini_request cfg key base64Audio
  end.

(** [transcribe(audioBlob, preferredService = 'openai')] *)
Definition transcribe (cfg : VoiceApiConfig) (net : Network) (audioBlob : Blob)
    (preferredService : Service) : Eff VoiceTranscriptionResult :=
  match preferredService with
  | OpenAI =>
      result <- transcribeWithOpenAI cfg net audioBlob ;;
      if negb (truthy (error result)) then ret result
      else transcribeWithGemini cfg net audioBlob
  | Gemini =>
      result <- transcribeWithGemini cfg net audioBlob ;;
      if negb (truthy (error result)) then ret result
      else transcribeWithOpenAI cfg net audioBlob
  end.

End WithEngine.

End VoiceAPI.

(* ===================================================================== *)
(** ** [lib/voiceAPI.ts], relay version *)
(* ===================================================================== *)

Module RelayVoiceAPI.
Import JS Net Media.
Open Scope eff_scope.

Definition requestMicrophonePermission (probe : throws nat) (s : System)
  : System * bool :=
  match probe with
  | inr n =>
      let (s1, probe_tracks) := open_stream n s in
      ({| service := service s1; tracks := stop_tracks probe_tracks (tracks s1);
          recorders := recorders s1; promises := promises s1 |}, true)
  | inl _ => (s, false)
  end.

(** [startRecording]: no test of [isRecording], no [try]. *)
Definition startRecording (env : StartEnv) (s : System) : System * throws unit :=
  match getUserMedia env with
  | inl e => (s, inl e)
  | inr n =>
      let (s1, stream_tracks) := open_stream n s in
      let s2 := set_service s1 {| mediaRecorder := mediaRecorder (service s1);
                                  audioChunks := [];
                                  isRecording := isRecording (service s1) |} in
      match new_MediaRecorder env stream_tracks "audio/webm" s2 with
      | inl e => (s2, inl e)
      | inr (s3, r) =>
          let s4 := set_service s3 {| mediaRecorder := Some r;
                                      audioChunks := audioChunks (service s3);
                                      isRecording := isRecording (service s3) |} in
          let s5 := set_recorder s4 r set_ondataavailable in
          match recorder_start env r s5 with
          | inl e => (s5, inl e)
          | inr s6 =>
              (set_service s6 {| mediaRecorder := mediaRecorder (service s6);
                                 audioChunks := audioChunks (service s6);
                                 isRecording := true |}, inr tt)
          end
      end
  end.

(** [stopRecording]: only [this.mediaRecorder] is tested. *)
Definition stopRecording {E : Engine} (s : System) : System * nat :=
  let (s1, p) := new_promise s in
  match mediaRecorder (service s1) with
  | None => (settle p (inl (Error "Not recording")) s1, p)
  | Some r =>
      let s2 := set_recorder s1 r (set_onstop p) in
      match recorder_stop r s2 with
      | inr s3 => (s3, p)
      | inl e => (settle p (inl e) s2, p)
      end
  end.

Definition isCurrentlyRecording (s : System) : bool := isRecording (service s).

Inductive Action : Type :=
  | RequestPermission (probe : throws nat)
  | Start (env : StartEnv)
  | Stop
  | Fire (ev : Event).

Definition step {E : Engine} (a : Action) (s : System) : option System :=
  match a with
  | RequestPermission probe => Some (fst (requestMicrophonePermission probe s))
  | Start env => Some (fst (startRecording env s))
  | Stop => Some (fst (stopRecording s))
  | Fire ev => fire ev s
  end.

Fixpoint run {E : Engine} (actions : list Action) (s : System) : option System :=
  match actions with
  | [] => Some s
  | a :: rest =>
      match step a s with
      | Some s' => run rest s'
      | None => None
      end
  end.

Section WithEngine.
Context {E : Engine}.

(** [blobToBase64]: the text after the first comma of the data URL
    ([split(',')[1]]); [None] when the reader fires [error], which rejects
    with the event. *)
Definition blobToBase64 (blob : Blob) : option value :=
  match read_as_data_url (blob_type blob) (blob_data blob) with
  | Some dataURL =>
      Some (match nth_error (split "," dataURL) 1 with
            | Some piece => VStr piece
            | None => VUndef
            end)
  | None => None
  end.

(** The request of the relay version's [transcribe]. *)
Definition chat_request (base64 : value) : Request :=
  {| url := "http://localhost:5000/chat";
     method := "POST";
     headers := [("Content-Type", "application/json")];
     body := body_of_json (VObj [("audioBase64", base64)]) |}.

(** [transcribe]: the relay's [response] is the transcript, whatever the
    status of the reply.  A rejected [blobToBase64] is caught with the
    reader's event, which has no [message]. *)
Definition transcribe (net : Network) (audioBlob : Blob)
  : Eff VoiceAPI.VoiceTranscriptionResult :=
  match blobToBase64 audioBlob with
  | None =>
      ret {| VoiceAPI.text := VStr ""; VoiceAPI.confidence := VUndef;
             VoiceAPI.error := VUndef |}
  | Some base64 =>
      try_catch
        (response <- fetch net (chat_request base64) ;;
         data <- lift (json response) ;;
         r <- lift (get data "response") ;;
         ret {| VoiceAPI.text := or r (VStr ""); VoiceAPI.confidence := VNum 1;
                VoiceAPI.error := VUndef |})
        (fun err => ret {| VoiceAPI.text := VStr ""; VoiceAPI.confidence := VUndef;
                           VoiceAPI.error := VStr (message err) |})
  end.

End WithEngine.

End RelayVoiceAPI.

(* ===================================================================== *)
(** ** The relay server, [POST /chat] *)
(* ===================================================================== *)

Module RelayServer.
Import JS Net.
Open Scope eff_scope.

(** [res.status(code).json(payload)]; [sent] is the body on the wire. *)
Record Reply : Type := { code : nat; payload : value }.

Definition sent {E : Engine} (r : Reply) : option string := stringify (payload r).

Definition PORT : nat := 5000.

Section WithEngine.
Context {E : Engine}.

(** [audioBase64 ? `Transcribe ...: ${audioBase64}` : message] *)
Definition prompt_of (message audioBase64 : value) : value :=
  if truthy audioBase64
  then VStr ("Transcribe this patient audio (base64-encoded): " ++ to_string audioBase64)
  else message.

(** The request forwarded to the local model. *)
Definition generate_request (prompt : value) : Request :=
  {| url := "http://localhost:11434/api/generate";
     method := "POST";
     headers := [("Content-Type", "application/json")];
     body := body_of_json (VObj [("model", VStr "med-intake");
                                 ("prompt", prompt);
                                 ("stream", VBool false)]) |}.

Definition missing_fields : Reply :=
  {| code := 400;
     payload := VObj [("response", VStr "No message or audioBase64 provided.")] |}.

Definition unreachable : Reply :=
  {| code := 500;
     payload := VObj [("response", VStr "Error: Unable to reach AI model.")] |}.

(** The handler of [app.post('/chat', ...)] applied to [req.body]; a throw
    of the handler itself (outside its [try]) is the [inl] case. *)
Definition chat (net : Network) (req_body : value) : Eff Reply :=
  message <- lift (get req_body "message") ;;
  audioBase64 <- lift (get req_body "audioBase64") ;;
  let prompt := prompt_of message audioBase64 in
  if negb (truthy prompt) then ret missing_fields
  else
    try_catch
      (response <- fetch net (generate_request prompt) ;;
       data <- lift (json response) ;;
       r <- lift (get data "response") ;;
       trimmed <- lift (if nullish r then inr VUndef else call_trim r) ;;
       ret {| code := 200; payload := VObj [("response", or trimmed (VStr ""))] |})
      (fun _ => ret unreachable).

End WithEngine.

End RelayServer.

(* ===================================================================== *)
(** ** [VoiceIntakeForm]: the voice handlers of the intake form *)
(* ===================================================================== *)

Module VoiceIntakeForm.
Import JS Net Media.

(** [keyof FormData] *)
Inductive Field : Type :=
  | firstName | lastName | dateOfBirth | phone | address
  | chiefComplaint | allergies | medications | medicalHistory.

Definition Field_eqb (a b : Field) : bool :=
  match a, b with
  | firstName, firstName | lastName, lastName | dateOfBirth, dateOfBirth
  | phone, phone | address, address | chiefComplaint, chiefComplaint
  | allergies, allergies | medications, medications
  | medicalHistory, medicalHistory => true
  | _, _ => false
  end.

Record VoiceRecognitionState : Type := {
  isSupported : bool;
  isListening : bool;
  hasPermission : bool;
  error : value;
  transcript : value;
}.

(** What the handlers of one render close over: the state values of that
    render.  A handler keeps reading them however the state moves on. *)
Record Render : Type := {
  voiceState : VoiceRecognitionState;
  currentField : option Field;
  preferredVoiceService : VoiceAPI.Service;
}.

(** What a pending timer will run: the auto-stop callback, with the render
    whose [startListening] created it, or the callback that empties the
    notice. *)
Inductive Callback : Type :=
  | AutoStop (closure : Render)
  | ClearNotice.

(** [delay] is in milliseconds. *)
Record Timer : Type := { timer_id : nat; delay : N; callback : Callback }.

(** The component: its state (the values the next render will show), the
    ref, and the timers pending.  [crashed] holds once a state updater has
    thrown while React applied it. *)
Record Component : Type := {
  current : Render;
  formData : Field -> string;
  recordingTimeoutRef : option nat;
  timers : list Timer;
  next_timer : nat;
  crashed : bool;
}.

(** The page: the component, the [voiceAPI] singleton with its browser
    objects, and the requests sent so far. *)
Record App : Type := {
  ui : Component;
  media : System;
  requests : list Request;
}.

(** What the browser and the network decide during one handler. *)
Record Env : Type := {
  probe : throws nat;
  recorder_defined : bool;
  start_env : StartEnv;
  (** the recorder events delivered while [stopRecording] is awaited *)
  stop_events : list Event;
  net : Network;
}.

Definition initial_voiceState : VoiceRecognitionState :=
  {| isSupported := true; isListening := false; hasPermission := false;
     error := VStr ""; transcript := VStr "" |}.

Definition initial : App :=
  {| ui := {| current := {| voiceState := initial_voiceState;
                            currentField := None;
                            preferredVoiceService := VoiceAPI.OpenAI |};
              formData := fun _ => "";
              recordingTimeoutRef := None;
              timers := [];
              next_timer := 1;
              crashed := false |};
     media := Media.initial;
     requests := [] |}.

(** [setVoiceState(prev => f prev)] *)
Definition setVoiceState (f : VoiceRecognitionState -> VoiceRecognitionState)
    (a : App) : App :=
  {| ui := {| current := {| voiceState := f (voiceState (current (ui a)));
                            currentField := currentField (current (ui a));
                            preferredVoiceService :=
                              preferredVoiceService (current (ui a)) |};
              formData := formData (ui a);
              recordingTimeoutRef := recordingTimeoutRef (ui a);
              timers := timers (ui a);
              next_timer := next_timer (ui a);
              crashed := crashed (ui a) |};
     media := media a;
     requests := requests a |}.

Definition setCurrentField (f : option Field) (a : App) : App :=
  {| ui := {| current := {| voiceState := voiceState (current (ui a));
                            currentField := f;
                            preferredVoiceService :=
                              preferredVoiceService (current (ui a)) |};
              formData := formData (ui a);
              recordingTimeoutRef := recordingTimeoutRef (ui a);
              timers := timers (ui a);
              next_timer := next_timer (ui a);
              crashed := crashed (ui a) |};
     media := media a;
     requests := requests a |}.

Definition set_media (m : System) (a : App) : App :=
  {| ui := ui a; media := m; requests := requests a |}.

Definition with_error (e : value) (v : VoiceRecognitionState) : VoiceRecognitionState :=
  {| isSupported := isSupported v; isListening := isListening v;
     hasPermission := hasPermission v; error := e; transcript := transcript v |}.

Definition with_listening (l : bool) (e : value) (v : VoiceRecognitionState)
  : VoiceRecognitionState :=
  {| isSupported := isSupported v; isListening := l;
     hasPermission := hasPermission v; error := e; transcript := transcript v |}.

(** [setTimeout(callback, delay)]: the state with the timer pending, and
    the timer's id. *)
Definition setTimeout (cb : Callback) (ms : N) (a : App) : App * nat :=
  ({| ui := {| current := current (ui a);
               formData := formData (ui a);
               recordingTimeoutRef := recordingTimeoutRef (ui a);
               timers := (timers (ui a) ++
                          [{| timer_id := next_timer (ui a); delay := ms;
                              callback := cb |}])%list;
               next_timer := S (next_timer (ui a));
               crashed := crashed (ui a) |};
      media := media a;
      requests := requests a |},
   next_timer (ui a)).

(** [clearTimeout(id)] *)
Definition clearTimeout (id : nat) (a : App) : App :=
  {| ui := {| current := current (ui a);
              formData := formData (ui a);
              recordingTimeoutRef := recordingTimeoutRef (ui a);
              timers := filter (fun t => negb (timer_id t =? id)%nat) (timers (ui a));
              next_timer := next_timer (ui a);
              crashed := crashed (ui a) |};
     media := media a;
     requests := requests a |}.

Definition set_recordingTimeoutRef (id : nat) (a : App) : App :=
  {| ui := {| current := current (ui a);
              formData := formData (ui a);
              recordingTimeoutRef := Some id;
              timers := timers (ui a);
              next_timer := next_timer (ui a);
              crashed := crashed (ui a) |};
     media := media a;
     requests := requests a |}.

(** [handleInputChange(field, value)]; [clearField(field)] is
    [handleInputChange(field, '')]. *)
Definition handleInputChange (field : Field) (v : string) (a : App) : App :=
  {| ui := {| current := current (ui a);
              formData := fun f => if Field_eqb f field then v else formData (ui a) f;
              recordingTimeoutRef := recordingTimeoutRef (ui a);
              timers := timers (ui a);
              next_timer := next_timer (ui a);
              crashed := crashed (ui a) |};
     media := media a;
     requests := requests a |}.

Definition clearField (field : Field) (a : App) : App :=
  handleInputChange field "" a.

(** The updater that [stopListening] gives [setFormData]: the new value of
    the field, or [None] when [result.text.trim()] throws. *)
Definition appended {E : Engine} (currentValue : string) (text : value) : option string :=
  match call_trim text with
  | inr (VStr trimmed) =>
      Some (currentValue ++ (if currentValue =? "" then "" else " ") ++ trimmed)
  | _ => None
  end.

(** [setFormData(prev => ({ ...prev, [field]: appended prev[field] text }))] *)
Definition setFormData_append {E : Engine} (field : Field) (text : value) (a : App)
  : App :=
  match appended (formData (ui a) field) text with
  | Some newValue =>
      {| ui := {| current := current (ui a);
                  formData := fun f => if Field_eqb f field then newValue
                                       else formData (ui a) f;
                  recordingTimeoutRef := recordingTimeoutRef (ui a);
                  timers := timers (ui a);
                  next_timer := next_timer (ui a);
                  crashed := crashed (ui a) |};
         media := media a;
         requests := requests a |}
  | None =>
      {| ui := {| current := current (ui a);
                  formData := formData (ui a);
                  recordingTimeoutRef := recordingTimeoutRef (ui a);
                  timers := timers (ui a);
                  next_timer := next_timer (ui a);
                  crashed := true |};
         media := media a;
         requests := requests a |}
  end.

(** The mark that opens the success notices, as the source file spells
    it: the bytes of the UTF-8 form of its three characters. *)
Definition check_mark : string :=
  string_of_list_ascii (map ascii_of_nat [195; 162; 197; 147; 226; 128; 156]).

(** The notice of a successful transcription. *)
Definition success_notice {E : Engine} (confidence : value) : string :=
  check_mark ++ " Transcribed successfully" ++
  (if truthy confidence then " (" ++ round_percent confidence ++ "% confidence)"
   else "").

(** The recorder events that arrive during an [await]; one that the
    recorder cannot fire is skipped. *)
Definition deliver (events : list Event) (s : System) : System :=
  fold_left (fun acc ev => match fire ev acc with
                           | Some s' => s'
                           | None => acc
                           end) events s.

(** The [finally] block of [stopListening]. *)
Definition stop_finally (a : App) : App :=
  let a1 := setCurrentField None a in
  match recordingTimeoutRef (ui a1) with
  | Some id => clearTimeout id a1
  | None => a1
  end.

(** Timer ids are handed out in order: the pending timers and the ref
    hold ids already handed out. *)
Definition well_timed (a : App) : Prop :=
  (forall t, In t (timers (ui a)) -> timer_id t < next_timer (ui a))
  /\ (forall id, recordingTimeoutRef (ui a) = Some id -> id < next_timer (ui a)).

(** The timer with a given id, if it is pending. *)
Definition pending (id : nat) (a : App) : option Timer :=
  find (fun t => (timer_id t =? id)%nat) (timers (ui a)).

Section Handlers.
Context {E : Engine}.
Variable cfg : VoiceAPI.VoiceApiConfig.

(** [catch (error)] of [stopListening] *)
Definition stop_catch (e : exn) (a : App) : App :=
  setVoiceState
    (with_listening false (VStr (VoiceAPI.message_or e "Failed to process voice recording")))
    a.

(** [stopListening], as the handler of render [closure], run to its end
    (or to the [await] it never leaves, when the promise of
    [stopRecording] stays pending). *)
Definition stopListening (closure : Render) (env : Env) (a : App) : App :=
  match isListening (voiceState closure), currentField closure with
  | true, Some field =>
      let a1 := setVoiceState (with_error (VStr "Processing audio...")) a in
      let (m1, p) := VoiceAPI.stopRecording (media a1) in
      let m2 := deliver (stop_events env) m1 in
      let a2 := set_media m2 a1 in
      match nth_error (promises m2) p with
      | Some (Some (inr audioBlob)) =>
          let a3 := setVoiceState
                      (with_listening false (VStr "Transcribing audio...")) a2 in
          match VoiceAPI.transcribe cfg (net env) audioBlob
                  (preferredVoiceService closure) (requests a3) with
          | (inr result, log) =>
              let a4 := {| ui := ui a3; media := media a3; requests := log |} in
              stop_finally
                (if truthy (VoiceAPI.error result) then
                   setVoiceState
                     (with_error (or (VoiceAPI.error result)
                                     (VStr "Failed to transcribe audio"))) a4
                 else if truthy (VoiceAPI.text result) then
                   let a5 := setFormData_append field (VoiceAPI.text result) a4 in
                   let a6 := setVoiceState
                               (fun prev =>
                                  {| isSupported := isSupported prev;
                                     isListening := isListening prev;
                                     hasPermission := hasPermission prev;
                                     error := VStr (success_notice
                                                      (VoiceAPI.confidence result));
                                     transcript := VoiceAPI.text result |}) a5 in
                   fst (setTimeout ClearNotice 3000%N a6)
                 else
                   setVoiceState
                     (with_error
                        (VStr "No speech detected. Please try speaking more clearly."))
                     a4)
          | (inl e, log) =>
              stop_finally
                (stop_catch e {| ui := ui a3; media := media a3; requests := log |})
          end
      | Some (Some (inl e)) => stop_finally (stop_catch e a2)
      | _ => a2
      end
  | _, _ => a
  end.

(** [catch (error)] of [startListening] *)
Definition start_catch (e : exn) (a : App) : App :=
  setCurrentField None
    (setVoiceState
       (with_listening false
          (VStr (VoiceAPI.message_or e
                   "Failed to start voice recording. Please try again.")))
       a).

(** The part of [startListening] from [try] on. *)
Definition start_try (closure : Render) (field : Field) (env : Env) (a : App) : App :=
  let a1 := setCurrentField (Some field) a in
  let a2 := setVoiceState
              (fun prev => {| isSupported := isSupported prev;
                              isListening := true;
                              hasPermission := hasPermission prev;
                              error := VStr "";
                              transcript := VStr "" |}) a1 in
  match VoiceAPI.startRecording (start_env env) (media a2) with
  | (m, inr _) =>
      let (a3, id) := setTimeout (AutoStop closure) 30000%N (set_media m a2) in
      set_recordingTimeoutRef id a3
  | (m, inl e) => start_catch e (set_media m a2)
  end.

(** The part of [startListening] from [if (!voiceState.hasPermission)] on. *)
Definition start_permitted (closure : Render) (field : Field) (env : Env) (a : App)
  : App :=
  if hasPermission (voiceState closure) then start_try closure field env a
  else
    match VoiceAPI.requestMicrophonePermission (probe env) (recorder_defined env) (media a) with
    | (m, true) =>
        start_try closure field env
          (setVoiceState
             (fun prev => {| isSupported := isSupported prev;
                             isListening := isListening prev;
                             hasPermission := true;
                             error := VStr "";
                             transcript := transcript prev |})
             (set_media m a))
    | (m, false) =>
        setVoiceState
          (with_error
             (VStr "Microphone access denied. Please allow microphone access and try again."))
          (set_media m a)
    end.

Definition same_field (f : option Field) (field : Field) : bool :=
  match f with
  | Some g => Field_eqb g field
  | None => false
  end.

(** Whether [stopListening] runs to its end: it does not when the promise
    of [stopRecording] stays pending, and then neither does a handler
    that awaits it. *)
Definition stop_settles (closure : Render) (env : Env) (a : App) : bool :=
  match isListening (voiceState closure), currentField closure with
  | true, Some _ =>
      let (m1, p) := VoiceAPI.stopRecording (media a) in
      match nth_error (promises (deliver (stop_events env) m1)) p with
      | Some (Some _) => true
      | _ => false
      end
  | _, _ => true
  end.

(** [startListening(field)], as the handler of render [closure];
    [stop_env] serves the [stopListening] it may await first.  The half
    second it then waits changes nothing and is left out. *)
Definition startListening (closure : Render) (field : Field) (stop_env env : Env)
    (a : App) : App :=
  if isListening (voiceState closure) && same_field (currentField closure) field
  then stopListening closure stop_env a
  else if isListening (voiceState closure)
          && negb (same_field (currentField closure) field)
  then
    if stop_settles closure stop_env a
    then start_permitted closure field env (stopListening closure stop_env a)
    else stopListening closure stop_env a
  else start_permitted closure field env a.

(** [initializeVoiceAPI], the effect run when the component mounts. *)
Definition initializeVoiceAPI (env : Env) (a : App) : App :=
  let (m, granted) := VoiceAPI.requestMicrophonePermission (probe env) (recorder_defined env) (media a) in
  setVoiceState
    (fun prev =>
       {| isSupported := isSupported prev;
          isListening := isListening prev;
          hasPermission := granted;
          error := VStr (if granted then ""
                         else "Microphone access denied. Please allow microphone access to use voice input.");
          transcript := transcript prev |})
    (set_media m a).

(** [testMicrophone] *)
Definition testMicrophone (env : Env) (a : App) : App :=
  let a1 := setVoiceState (with_error (VStr "Testing microphone...")) a in
  match VoiceAPI.requestMicrophonePermission (probe env) (recorder_defined env) (media a1) with
  | (m, true) =>
      fst (setTimeout ClearNotice 3000%N
             (setVoiceState
                (fun prev =>
                   {| isSupported := isSupported prev;
                      isListening := isListening prev;
                      hasPermission := true;
                      error := VStr (check_mark ++
                                     " Microphone test successful! You can now use voice input.");
                      transcript := transcript prev |})
                (set_media m a1)))
  | (m, false) =>
      setVoiceState
        (with_error
           (VStr "Microphone test failed. Please check your microphone and browser permissions."))
        (set_media m a1)
  end.

(** A pending timer fires: it leaves the list and its callback runs. *)
Definition fire_timer (id : nat) (env : Env) (a : App) : option App :=
  match pending id a with
  | Some t =>
      let a1 := clearTimeout id a in
      Some (match callback t with
            | AutoStop closure =>
                if isListening (voiceState closure) then stopListening closure env a1
                else a1
            | ClearNotice => setVoiceState (with_error (VStr "")) a1
            end)
  | None => None
  end.

(** What happens to the page: the mount effect, a click on the test
    button, on the microphone of a field or on [Stop] (handled by the
    handlers of the render on screen), a timer, a recorder event between
    handlers, a choice of the preferred service, typing into a field,
    clearing it. *)
Inductive Input : Type :=
  | Mount (env : Env)
  | ClickTest (env : Env)
  | ClickMic (field : Field) (stop_env env : Env)
  | ClickStop (env : Env)
  | TimerFires (id : nat) (env : Env)
  | Recorder (ev : Event)
  | SelectService (s : VoiceAPI.Service)
  | Edit (field : Field) (v : string)
  | Clear (field : Field).

Definition handle (i : Input) (a : App) : option App :=
  match i with
  | Mount env => Some (initializeVoiceAPI env a)
  | ClickTest env => Some (testMicrophone env a)
  | ClickMic field stop_env env =>
      Some (startListening (current (ui a)) field stop_env env a)
  | ClickStop env => Some (stopListening (current (ui a)) env a)
  | TimerFires id env => fire_timer id env a
  | Recorder ev =>
      match fire ev (media a) with
      | Some m => Some (set_media m a)
      | None => None
      end
  | SelectService s =>
      Some {| ui := {| current := {| voiceState := voiceState (current (ui a));
                                     currentField := currentField (current (ui a));
                                     preferredVoiceService := s |};
                       formData := formData (ui a);
                       recordingTimeoutRef := recordingTimeoutRef (ui a);
                       timers := timers (ui a);
                       next_timer := next_timer (ui a);
                       crashed := crashed (ui a) |};
              media := media a;
              requests := requests a |}
  | Edit field v => Some (handleInputChange field v a)
  | Clear field => Some (clearField field a)
  end.

Fixpoint handle_all (inputs : list Input) (a : App) : option App :=
  match inputs with
  | [] => Some a
  | i :: rest =>
      match handle i a with
      | Some a' => handle_all rest a'
      | None => None
      end
  end.

End Handlers.

End VoiceIntakeForm.

(* ===================================================================== *)
(** ** An engine and inputs to run the model on *)
(* ===================================================================== *)

Module Sample.
Import JS Net Media.

Definition alphabet : string :=
  "ABCDEFGHIJKLMNOPQRSTUVWXYZabcdefghijklmnopqrstuvwxyz0123456789+/".

Definition digit64 (n : nat) : ascii :=
  match String.get n alphabet with
  | Some c => c
  | None => "="%char
  end.

(** Base64 ([btoa]) of a byte sequence. *)
Fixpoint base64 (bytes : list Byte.byte) : string :=
  match bytes with
  | [] => ""
  | [a] =>
      let x := Byte.to_nat a in
      String (digit64 (x / 4)) (String (digit64 (x mod 4 * 16)) "==")
  | [a; b] =>
      let x := Byte.to_nat a in
      let y := Byte.to_nat b in
      String (digit64 (x / 4))
        (String (digit64 (x mod 4 * 16 + y / 16))
           (String (digit64 (y mod 16 * 4)) "="))
  | a :: b :: c :: rest =>
      let x := Byte.to_nat a in
      let y := Byte.to_nat b in
      let z := Byte.to_nat c in
      String (digit64 (x / 4))
        (String (digit64 (x mod 4 * 16 + y / 16))
           (String (digit64 (y mod 16 * 4 + z / 64))
              (String (digit64 (z mod 64)) (base64 rest))))
  end.

Definition all_digits (s : string) : bool :=
  forallb (fun c => ((48 <=? nat_of_ascii c) && (nat_of_ascii c <=? 57))%nat)
          (list_ascii_of_string s).

Definition some_nonzero_digit (s : string) : bool :=
  existsb (fun c => ((49 <=? nat_of_ascii c) && (nat_of_ascii c <=? 57))%nat)
          (list_ascii_of_string s).

(** An engine to run the model on concrete inputs.  It answers as V8 does
    on the inputs the examples below give it: numerals written in digits
    only, halves, recordings short enough to spread; [stop()] on an
    inactive recorder does nothing, as the MediaStream Recording
    specification has it. *)
Definition engine : Engine :=
  {| fraction_to_string q :=
       let r := Qred q in
       if (Qden r =? 2)%positive then
         (if (Qnum r <? 0)%Z then "-" else "")
         ++ NilZero.string_of_int (Z.to_int (Z.quot (Z.abs (Qnum r)) 2)) ++ ".5"
       else "NaN";
     string_gt_zero s := all_digits s && some_nonzero_digit s;
     nullish_read_message v k :=
       "Cannot read properties of "
       ++ (match v with VNull => "null" | _ => "undefined" end)
       ++ " (reading '" ++ k ++ "')";
     not_a_function_message v k := k ++ " is not a function";
     btoa_spread bytes := inr (base64 bytes);
     round_percent v :=
       match v with
       | VNum q => NilZero.string_of_int (Z.to_int (Qfloor (q * 100 + (1 # 2))%Q))
       | _ => "NaN"
       end;
     stop_inactive_error := None;
     read_as_data_url type bytes :=
       Some ("data:" ++ type ++ ";base64," ++ base64 bytes) |}.

(** An engine of the older kind, whose [stop()] throws on an inactive
    recorder. *)
Definition throwing_engine : Engine :=
  {| fraction_to_string := @fraction_to_string engine;
     string_gt_zero := @string_gt_zero engine;
     nullish_read_message := @nullish_read_message engine;
     not_a_function_message := @not_a_function_message engine;
     btoa_spread := @btoa_spread engine;
     round_percent := @round_percent engine;
     stop_inactive_error :=
       Some "Failed to execute 'stop' on 'MediaRecorder': The MediaRecorder's state is 'inactive'.";
     read_as_data_url := @read_as_data_url engine |}.

Definition both_keys : VoiceAPI.VoiceApiConfig :=
  VoiceAPI.VOICE_API_CONFIG (Some "sk-test") (Some "g-test").

Definition gemini_only : VoiceAPI.VoiceApiConfig :=
  VoiceAPI.VOICE_API_CONFIG None (Some "g-test").

Definition no_keys : VoiceAPI.VoiceApiConfig :=
  VoiceAPI.VOICE_API_CONFIG None None.

Definition audio : Blob :=
  {| blob_type := "audio/webm;codecs=opus";
     blob_data := [Byte.x1a; Byte.x45; Byte.xdf; Byte.xa3] |}.

Definition respond (code : nat) (reason : string) (data : value) : throws Response :=
  inr {| status := code; statusText := reason; json := inr data |}.

Definition fever : value :=
  VObj [("results",
         VArr [VObj [("alternatives",
                      VArr [VObj [("transcript", VStr "fever for two days");
                                  ("confidence", VNum (7 # 8))]])]])].

Definition starts_with (prefix s : string) : bool :=
  String.prefix prefix s.

(** OpenAI answers 500, Gemini answers with a transcript. *)
Definition openai_down : Network :=
  fun req =>
    if starts_with "https://api.openai.com/" (url req)
    then respond 500 "Internal Server Error"
           (VObj [("error", VObj [("message", VStr "The server had an error")])])
    else respond 200 "OK" fever.

(** Both providers answer 503 with a body that is not JSON. *)
Definition all_down : Network :=
  fun req =>
    inr {| status := 503; statusText := "Service Unavailable";
           json := inl (Error "Unexpected token < in JSON at position 0") |}.

(** OpenAI hears nothing: status 200 and an empty [text]. *)
Definition openai_silent : Network :=
  fun req =>
    if starts_with "https://api.openai.com/" (url req)
    then respond 200 "OK" (VObj [("text", VStr "")])
    else respond 200 "OK" fever.

(** Gemini answers 200 with an empty [results]. *)
Definition gemini_empty : Network :=
  fun req =>
    if starts_with "https://speech.googleapis.com/" (url req)
    then respond 200 "OK" (VObj [("results", VArr [])])
    else respond 200 "OK" (VObj [("text", VStr "fever for two days")]).

Definition one_track : StartEnv :=
  {| getUserMedia := inr 1;
     isTypeSupported := fun type => (type =? "audio/webm;codecs=opus")
                                    || (type =? "audio/webm");
     not_supported := Error "Failed to construct 'MediaRecorder': mimeType is not supported";
     start_error := None |}.

Definition chunk : Blob :=
  {| blob_type := "audio/webm;codecs=opus";
     blob_data := [Byte.x1a; Byte.x45; Byte.xdf; Byte.xa3] |}.

(** A browser that records no format at all. *)
Definition no_format : StartEnv :=
  {| getUserMedia := inr 1;
     isTypeSupported := fun _ => false;
     not_supported := Error "Failed to construct 'MediaRecorder': mimeType is not supported";
     start_error := None |}.

(** The provider version after some actions ([Media.initial] again if
    one cannot happen). *)
Definition capture (actions : list VoiceAPI.Action) : System :=
  match VoiceAPI.run (E := engine) actions Media.initial with
  | Some s => s
  | None => Media.initial
  end.

Definition recording_actions : list VoiceAPI.Action :=
  [VoiceAPI.RequestPermission (inr 1) true;
   VoiceAPI.Start one_track;
   VoiceAPI.Fire (DataAvailable 0 chunk)].

(** Permission probed, a recording started, one chunk buffered. *)
Definition recording : System := capture recording_actions.

(** Then [stopRecording] called and the last chunk delivered. *)
Definition stopping : System :=
  capture (recording_actions
           ++ [VoiceAPI.Stop; VoiceAPI.Fire (DataAvailable 0 chunk)]).

(** Then the [stop] event. *)
Definition stopped : System :=
  capture (recording_actions
           ++ [VoiceAPI.Stop; VoiceAPI.Fire (DataAvailable 0 chunk);
               VoiceAPI.Fire (Stopped 0)]).

(** OpenAI answers with a transcript that has spaces around it. *)
Definition openai_hears : Network :=
  fun req => respond 200 "OK" (VObj [("text", VStr " fever for two days ")]).

(** The microphone is granted, recording starts, and nothing else comes. *)
Definition granted : VoiceIntakeForm.Env :=
  {| VoiceIntakeForm.probe := inr 1;
     VoiceIntakeForm.recorder_defined := true;
     VoiceIntakeForm.start_env := one_track;
     VoiceIntakeForm.stop_events := [];
     VoiceIntakeForm.net := openai_hears |}.

(** While [stopRecording] is awaited, recorder [r] delivers its last chunk
    and its [stop] event. *)
Definition stops (r : nat) : VoiceIntakeForm.Env :=
  {| VoiceIntakeForm.probe := inr 1;
     VoiceIntakeForm.recorder_defined := true;
     VoiceIntakeForm.start_env := one_track;
     VoiceIntakeForm.stop_events := [DataAvailable r chunk; Stopped r];
     VoiceIntakeForm.net := openai_hears |}.


(** The page after some inputs ([initial] again if one cannot happen). *)
Definition after (inputs : list VoiceIntakeForm.Input) : VoiceIntakeForm.App :=
  match VoiceIntakeForm.handle_all (E := engine) both_keys inputs VoiceIntakeForm.initial with
  | Some a => a
  | None => VoiceIntakeForm.initial
  end.

(** The form mounted, with a few words typed into the chief complaint. *)
Definition mounted : VoiceIntakeForm.App :=
  after [VoiceIntakeForm.Mount granted;
         VoiceIntakeForm.Edit VoiceIntakeForm.chiefComplaint "Since Monday:"].

(** Then the microphone of the chief complaint clicked. *)
Definition listening : VoiceIntakeForm.App :=
  after [VoiceIntakeForm.Mount granted;
         VoiceIntakeForm.Edit VoiceIntakeForm.chiefComplaint "Since Monday:";
         VoiceIntakeForm.ClickMic VoiceIntakeForm.chiefComplaint granted granted].


End Sample.

(* ===================================================================== *)
(** * Properties *)
(* ===================================================================== *)

Import JS Net Media.

Ltac eff := unfold bind, ret, throw, try_catch, lift, fetch in *.

(** Case analysis on whatever a [match] of the goal or a hypothesis
    inspects. *)
Ltac split_match :=
  match goal with
  | |- context [match ?x with _ => _ end] => destruct x eqn:?
  | H : context [match ?x with _ => _ end] |- _ => destruct x eqn:?
  end.

Ltac invert_pairs :=
  repeat match goal with
         | H : (_, _) = (_, _) |- _ => inversion H; clear H; subst
         end.

(* ===================================================================== *)
(** ** The transcription client *)
(* ===================================================================== *)

Section Transcription.
Import VoiceAPI.
Context {E : Engine}.
Variables (cfg : VoiceApiConfig) (net : Network) (audioBlob : Blob).

Lemma message_or_nonempty (e : exn) (fallback : string) :
  fallback <> "" -> message_or e fallback <> "".
Proof.
  intros Hf. unfold message_or.
  destruct (message e =? "") eqn:Hm; [exact Hf|].
  now apply String.eqb_neq.
Qed.

Lemma truthy_failure (msg : string) :
  msg <> "" -> truthy (error (failure msg)) = true.
Proof.
  intros H. simpl. apply negb_true_iff. now apply String.eqb_neq.
Qed.

(** An adapter returns: whatever goes wrong inside is caught. *)
Lemma adapter_returns (s : Service) (log : list Request) :
  exists r log', adapter s cfg net audioBlob log = (inr r, log').
Proof.
  destruct s; simpl.
  - unfold transcribeWithOpenAI.
    destruct (present _); [|eexists _, _; reflexivity].
    unfold try_catch.
    match goal with |- context [match ?m with _ => _ end] =>
      destruct m as [[e|r] l] end; eexists _, _; reflexivity.
  - unfold transcribeWithGemini.
    destruct (present _); [|eexists _, _; reflexivity].
    unfold try_catch.
    match goal with |- context [match ?m with _ => _ end] =>
      destruct m as [[e|r] l] end; eexists _, _; reflexivity.
Qed.

Lemma throw_api_error_throws (name : string) (response : Response) (log : list Request) :
  exists e, @throw_api_error E VoiceTranscriptionResult name response log = (inl e, log).
Proof.
  unfold throw_api_error. eff.
  destruct (get _ "error") as [e|err]; [eauto|].
  destruct (get_opt err "message") as [e|msg]; eauto.
Qed.

Lemma gemini_result_well_formed (data : value) (log log' : list Request)
    (r : VoiceTranscriptionResult) :
  gemini_result data log = (inr r, log') -> well_formed r.
Proof.
  unfold gemini_result. eff. intros H.
  repeat split_match; inversion H; subst;
    try (left; reflexivity);
    right; eexists; (split; [|reflexivity]); discriminate.
Qed.

Lemma adapter_well_formed (s : Service) (log log' : list Request)
    (r : VoiceTranscriptionResult) :
  adapter s cfg net audioBlob log = (inr r, log') -> well_formed r.
Proof.
  destruct s; simpl.
  - unfold transcribeWithOpenAI.
    destruct (present _).
    + unfold try_catch.
      match goal with |- context [match ?m with _ => _ end] =>
        destruct m as [[e|r0] l] eqn:Hm end.
      * intros H. inversion H; subst. right. eexists. split; [|reflexivity].
        now apply message_or_nonempty.
      * intros H. inversion H; subst. clear H. eff.
        destruct (net _) as [e|response]; [discriminate|].
        destruct (negb (ok response)).
        -- destruct (throw_api_error_throws "OpenAI" response (log ++ [openai_request cfg s audioBlob]))
             as [e He].
           rewrite He in Hm. discriminate.
        -- repeat split_match; inversion Hm; subst; left; reflexivity.
    + intros H. inversion H. right. eexists. split; [|reflexivity]. discriminate.
  - unfold transcribeWithGemini.
    destruct (present _).
    + unfold try_catch.
      match goal with |- context [match ?m with _ => _ end] =>
        destruct m as [[e|r0] l] eqn:Hm end.
      * intros H. inversion H; subst. right. eexists. split; [|reflexivity].
        now apply message_or_nonempty.
      * intros H. inversion H; subst. clear H. eff.
        destruct (btoa_spread _) as [e|b64]; [discriminate|].
        destruct (net _) as [e|response]; [discriminate|].
        destruct (negb (ok response)).
        -- destruct (throw_api_error_throws "Gemini" response
                       (log ++ [gemini_request cfg s b64])) as [e He].
           rewrite He in Hm. discriminate.
        -- destruct (json response) as [e|data]; [discriminate|].
           eapply gemini_result_well_formed. unfold gemini_result. eff. exact Hm.
    + intros H. inversion H. right. eexists. split; [|reflexivity]. discriminate.
Qed.

(** An adapter sends at most one request, and it is its own. *)
Lemma adapter_log (s : Service) (log log' : list Request)
    (x : throws VoiceTranscriptionResult) :
  adapter s cfg net audioBlob log = (x, log') ->
  log' = log \/ exists req, log' = (log ++ [req])%list /\ request_of cfg audioBlob s req.
Proof.
  destruct s; simpl.
  - unfold transcribeWithOpenAI.
    destruct (present _) as [key|]; [|intros H; inversion H; now left].
    intros H. right. exists (openai_request cfg key audioBlob).
    split; [|now exists key].
    revert H. unfold try_catch. eff.
    destruct (net _) as [e|response]; [intros H; now inversion H|].
    destruct (negb (ok response)).
    + destruct (throw_api_error_throws "OpenAI" response
                  (log ++ [openai_request cfg key audioBlob])) as [e He].
      rewrite He. intros H. now inversion H.
    + repeat split_match; intros H; invert_pairs; reflexivity.
  - unfold transcribeWithGemini.
    destruct (present _) as [key|]; [|intros H; inversion H; now left].
    unfold try_catch. eff.
    destruct (btoa_spread _) as [e|b64]; [intros H; inversion H; now left|].
    intros H. right. exists (gemini_request cfg key b64).
    split; [|now exists key, b64].
    revert H.
    destruct (net _) as [e|response]; [intros H; now inversion H|].
    destruct (negb (ok response)).
    + destruct (throw_api_error_throws "Gemini" response
                  (log ++ [gemini_request cfg key b64])) as [e He].
      rewrite He. intros H. now inversion H.
    + destruct (json response) as [e|data]; [intros H; now inversion H|].
      unfold gemini_result. eff.
      repeat split_match; intros H; invert_pairs; reflexivity.
Qed.

Lemma transcribe_after_failure (preferred : Service)
    (log log1 : list Request) (r1 : VoiceTranscriptionResult) :
  adapter preferred cfg net audioBlob log = (inr r1, log1) ->
  truthy (error r1) = true ->
  transcribe cfg net audioBlob preferred log
  = adapter (other preferred) cfg net audioBlob log1.
Proof.
  intros H1 Herr.
  destruct preferred; simpl in *; unfold transcribe, bind;
    rewrite H1, Herr; reflexivity.
Qed.

Lemma transcribe_without_failure (preferred : Service)
    (log log1 : list Request) (r1 : VoiceTranscriptionResult) :
  adapter preferred cfg net audioBlob log = (inr r1, log1) ->
  truthy (error r1) = false ->
  transcribe cfg net audioBlob preferred log = (inr r1, log1).
Proof.
  intros H1 Herr.
  destruct preferred; simpl in *; unfold transcribe, bind;
    rewrite H1, Herr; reflexivity.
Qed.

(** C1.  When the adapter of the preferred provider was tried first and
    its result carries an error, [transcribe] returns exactly what the
    adapter of the one alternate provider returns, run after it (on the
    request log the preferred adapter left): the fallback is transparent
    and goes preferred, then other. *)
Theorem transcribe_fallback_is_transparent (preferred : Service)
    (log log1 log2 : list Request) (r1 r2 : VoiceTranscriptionResult) :
  adapter preferred cfg net audioBlob log = (inr r1, log1) ->
  truthy (error r1) = true ->
  adapter (other preferred) cfg net audioBlob log1 = (inr r2, log2) ->
  transcribe cfg net audioBlob preferred log = (inr r2, log2).
Proof.
  intros H1 Herr H2.
  rewrite (transcribe_after_failure preferred log log1 r1 H1 Herr). exact H2.
Qed.


(** C10.  When the adapter of the preferred provider returns a result
    without error (an empty [text] included), [transcribe] returns that
    result as it is, and has sent nothing but what that adapter sends: the
    alternate is not consulted. *)
Theorem transcribe_keeps_result_without_error (preferred : Service)
    (log log1 : list Request) (r1 : VoiceTranscriptionResult) :
  adapter preferred cfg net audioBlob log = (inr r1, log1) ->
  truthy (error r1) = false ->
  transcribe cfg net audioBlob preferred log = (inr r1, log1)
  /\ (log1 = log
      \/ exists req, log1 = (log ++ [req])%list
                     /\ request_of cfg audioBlob preferred req).
Proof.
  intros H1 Herr. split.
  - now apply transcribe_without_failure.
  - eapply adapter_log. exact H1.
Qed.

(** C5.  A provider without credential ([!apiKey]) fails with its own
    message, "... API key not configured ...", and sends nothing; with it
    preferred, [transcribe] is the adapter of the alternate; and whichever
    is preferred, the requests of [transcribe] are those of the other
    provider's adapter alone. *)
Theorem missing_credential_falls_back_without_request (s : Service)
    (log : list Request) :
  present (apiKey (provider cfg s)) = None ->
  adapter s cfg net audioBlob log = (inr (failure (not_configured s)), log)
  /\ transcribe cfg net audioBlob s log = adapter (other s) cfg net audioBlob log
  /\ forall preferred,
       snd (transcribe cfg net audioBlob preferred log)
       = snd (adapter (other s) cfg net audioBlob log).
Proof.
  intros Hkey.
  assert (Hs : forall l, adapter s cfg net audioBlob l
                         = (inr (failure (not_configured s)), l)).
  { intros l. destruct s; simpl in *;
      [unfold transcribeWithOpenAI | unfold transcribeWithGemini];
      rewrite Hkey; reflexivity. }
  assert (Ht : transcribe cfg net audioBlob s log
               = adapter (other s) cfg net audioBlob log).
  { destruct s; simpl in *; unfold transcribe, bind;
      rewrite (Hs log); reflexivity. }
  split; [apply Hs|]. split; [exact Ht|].
  intros preferred.
  destruct s, preferred; simpl in *; try (rewrite Ht; reflexivity).
  - unfold transcribe, bind.
    destruct (transcribeWithGemini cfg net audioBlob log) as [[e|r] l]; [reflexivity|].
    destruct (negb (truthy (error r))); [reflexivity|].
    rewrite (Hs l). reflexivity.
  - unfold transcribe, bind.
    destruct (transcribeWithOpenAI cfg net audioBlob log) as [[e|r] l]; [reflexivity|].
    destruct (negb (truthy (error r))); [reflexivity|].
    rewrite (Hs l). reflexivity.
Qed.

(** C8, as the code has it.  A 2xx reply of Gemini whose body holds an
    empty [results] array makes [transcribeWithGemini] return an empty
    [text] with the error "No transcription results from Gemini": a
    failure of the provider. *)
Theorem gemini_empty_results_is_a_failure (log : list Request) (key b64 : string)
    (response : Response) (fields : list (string * value)) :
  present (apiKey (gemini cfg)) = Some key ->
  btoa_spread (blob_data audioBlob) = inr b64 ->
  net (gemini_request cfg key b64) = inr response ->
  ok response = true ->
  json response = inr (VObj fields) ->
  assoc "results" fields = VArr [] ->
  transcribeWithGemini cfg net audioBlob log
  = (inr {| text := VStr ""; confidence := VUndef;
            error := VStr "No transcription results from Gemini" |},
     (log ++ [gemini_request cfg key b64])%list).
Proof.
  intros Hkey Hb64 Hnet Hok Hjson Hres.
  unfold transcribeWithGemini. rewrite Hkey.
  unfold try_catch, gemini_result. eff.
  rewrite Hb64, Hnet, Hok, Hjson. simpl. rewrite Hres. reflexivity.
Qed.

End Transcription.

(** The scenario of the specification: OpenAI is preferred and answers
    500, Gemini answers with a transcript. *)
Lemma transcribe_fallback_is_transparent_witness :
  exists log,
    VoiceAPI.transcribe (E := Sample.engine) Sample.both_keys Sample.openai_down Sample.audio
      VoiceAPI.OpenAI []
    = (inr {| VoiceAPI.text := VStr "fever for two days";
              VoiceAPI.confidence := VNum (7 # 8);
              VoiceAPI.error := VUndef |}, log).
Proof.
  eexists.
  eapply (transcribe_fallback_is_transparent (E := Sample.engine) Sample.both_keys Sample.openai_down
            Sample.audio VoiceAPI.OpenAI []).
  - vm_compute. reflexivity.
  - reflexivity.
  - vm_compute. reflexivity.
Defined.


(** OpenAI is preferred and hears nothing: its empty result comes back,
    and its request is the only one. *)
Lemma transcribe_keeps_result_without_error_witness :
  VoiceAPI.transcribe (E := Sample.engine) Sample.both_keys Sample.openai_silent Sample.audio
    VoiceAPI.OpenAI []
  = (inr {| VoiceAPI.text := VStr ""; VoiceAPI.confidence := VNum 1;
            VoiceAPI.error := VUndef |},
     [VoiceAPI.openai_request Sample.both_keys "sk-test" Sample.audio]).
Proof.
  apply (transcribe_keeps_result_without_error (E := Sample.engine) Sample.both_keys Sample.openai_silent
           Sample.audio VoiceAPI.OpenAI []).
  - vm_compute. reflexivity.
  - reflexivity.
Defined.

(** No OpenAI key: the preferred OpenAI adapter sends nothing and
    [transcribe] is Gemini's adapter. *)
Lemma missing_credential_falls_back_without_request_witness :
  VoiceAPI.transcribe (E := Sample.engine) Sample.gemini_only Sample.openai_down Sample.audio
    VoiceAPI.OpenAI []
  = VoiceAPI.transcribeWithGemini (E := Sample.engine) Sample.gemini_only Sample.openai_down Sample.audio [].
Proof.
  apply (missing_credential_falls_back_without_request (E := Sample.engine) Sample.gemini_only
           Sample.openai_down Sample.audio VoiceAPI.OpenAI []).
  reflexivity.
Defined.

(** C8 as stated fails: Gemini answers 200 with [{"results": []}], and the
    adapter's result carries an error. *)
Lemma gemini_empty_results_counterexample :
  exists r log,
    VoiceAPI.transcribeWithGemini (E := Sample.engine) Sample.both_keys Sample.gemini_empty Sample.audio []
    = (inr r, log)
    /\ VoiceAPI.text r = VStr ""
    /\ VoiceAPI.error r = VStr "No transcription results from Gemini"
    /\ truthy (VoiceAPI.error r) = true.
Proof.
  eexists _, _. split; [vm_compute; reflexivity|].
  repeat split.
Qed.

Lemma gemini_empty_results_is_a_failure_witness :
  fst (VoiceAPI.transcribeWithGemini (E := Sample.engine) Sample.both_keys Sample.gemini_empty Sample.audio [])
  = inr (VoiceAPI.failure "No transcription results from Gemini").
Proof.
  erewrite (gemini_empty_results_is_a_failure (E := Sample.engine) Sample.both_keys Sample.gemini_empty
              Sample.audio [] "g-test" (Sample.base64 (blob_data Sample.audio))).
  - reflexivity.
  - reflexivity.
  - reflexivity.
  - vm_compute. reflexivity.
  - reflexivity.
  - reflexivity.
  - reflexivity.
Defined.

(* ===================================================================== *)
(** ** The relay server *)
(* ===================================================================== *)

Section Relay.
Import RelayServer.
Context {E : Engine}.
Variable net : Network.

(** C7.  A request body that provides neither [message] nor
    [audioBase64] is answered with status 400 and the body
    [{"response":"No message or audioBase64 provided."}], and nothing is
    forwarded to the model: the request log is unchanged. *)
Theorem chat_rejects_request_without_fields (req_body : value) (log : list Request) :
  get req_body "message" = inr VUndef ->
  get req_body "audioBase64" = inr VUndef ->
  let reply := {| code := 400;
                  payload := VObj [("response",
                                    VStr "No message or audioBase64 provided.")] |} in
  chat net req_body log = (inr reply, log)
  /\ sent reply
     = Some ("{" ++ String dquote "response" ++ String dquote ":"
             ++ String dquote "No message or audioBase64 provided."
             ++ String dquote "}").
Proof.
  intros Hm Ha. unfold chat. eff. rewrite Hm, Ha. simpl.
  split; reflexivity.
Qed.

End Relay.

(** [POST /chat] with the body [{}]. *)
Lemma chat_rejects_request_without_fields_witness :
  RelayServer.chat (E := Sample.engine) Sample.openai_down (VObj []) []
  = (inr {| RelayServer.code := 400;
            RelayServer.payload :=
              VObj [("response", VStr "No message or audioBase64 provided.")] |},
     []).
Proof.
  apply (chat_rejects_request_without_fields (E := Sample.engine)
           Sample.openai_down (VObj []) [] eq_refl eq_refl).
Defined.

(* ===================================================================== *)
(** ** Lists updated in place, tracks *)
(* ===================================================================== *)

Section Lists.
Context {A : Type}.

Lemma length_update (i : nat) (f : A -> A) (l : list A) :
  List.length (update i f l) = List.length l.
Proof.
  revert i. induction l as [|x l IH]; intros [|i]; simpl; auto.
Qed.

Lemma nth_error_update_eq (i : nat) (f : A -> A) (l : list A) :
  nth_error (update i f l) i = option_map f (nth_error l i).
Proof.
  revert i. induction l as [|x l IH]; intros [|i]; simpl; auto.
Qed.

Lemma nth_error_update_ne (i j : nat) (f : A -> A) (l : list A) :
  i <> j -> nth_error (update i f l) j = nth_error l j.
Proof.
  revert i j. induction l as [|x l IH]; intros [|i] [|j] H; simpl; auto.
  congruence.
Qed.

Lemma update_app_l (i : nat) (f : A -> A) (l l' : list A) :
  i < List.length l -> update i f (l ++ l') = (update i f l ++ l')%list.
Proof.
  revert i. induction l as [|x l IH]; intros [|i] H; simpl in *; try lia; auto.
  rewrite IH; auto. lia.
Qed.

Lemma update_app_last (f : A -> A) (l : list A) (x : A) :
  update (List.length l) f (l ++ [x]) = (l ++ [f x])%list.
Proof.
  induction l as [|y l IH]; simpl; auto. now rewrite IH.
Qed.

Lemma nth_error_app_last (l : list A) (x : A) :
  nth_error (l ++ [x]) (List.length l) = Some x.
Proof.
  rewrite nth_error_app2 by lia. now rewrite Nat.sub_diag.
Qed.

Lemma update_out_of_range (i : nat) (f : A -> A) (l : list A) :
  List.length l <= i -> update i f l = l.
Proof.
  revert i. induction l as [|x l IH]; intros [|i] H; simpl in *; auto; try lia.
  rewrite IH; auto. lia.
Qed.

End Lists.

Lemma nth_error_stop_tracks_other (ids : list nat) (ts : list nat) (t : nat) :
  ~ In t ids -> nth_error (stop_tracks ids ts) t = nth_error ts t.
Proof.
  revert ts. induction ids as [|i ids IH]; intros ts H; simpl; auto.
  unfold stop_tracks in *. simpl. rewrite IH.
  - unfold stop_track. apply nth_error_update_ne. intros ->. apply H. now left.
  - intros Hin. apply H. now right.
Qed.

Lemma nth_error_stop_tracks_in (ids : list nat) (ts : list nat) (t : nat) :
  NoDup ids -> In t ids ->
  nth_error (stop_tracks ids ts) t = option_map S (nth_error ts t).
Proof.
  revert ts. induction ids as [|i ids IH]; intros ts Hnd Hin; [destruct Hin|].
  inversion Hnd as [|? ? Hni Hnd']; subst.
  unfold stop_tracks in *. simpl.
  destruct Hin as [<-|Hin].
  - fold (stop_tracks ids (stop_track i ts)).
    rewrite nth_error_stop_tracks_other by assumption.
    apply nth_error_update_eq.
  - rewrite IH by assumption.
    unfold stop_track. rewrite nth_error_update_ne; auto.
    intros ->. contradiction.
Qed.

Lemma length_stop_tracks (ids : list nat) (ts : list nat) :
  List.length (stop_tracks ids ts) = List.length ts.
Proof.
  revert ts. induction ids as [|i ids IH]; intros ts; simpl; auto.
  unfold stop_tracks in *. simpl. rewrite IH. apply length_update.
Qed.


(* ===================================================================== *)
(** ** Capture, provider version: what every reachable state satisfies *)
(* ===================================================================== *)

Section Capture.
Import VoiceAPI.
Context {E : Engine}.





Lemma keeps_state_set_ondataavailable : keeps_state set_ondataavailable.
Proof. intros m. simpl. auto. Qed.














End Capture.

(* ===================================================================== *)
(** ** The intake form *)
(* ===================================================================== *)

Section Form.
Import VoiceIntakeForm.
Context {E : Engine}.
Variable cfg : VoiceAPI.VoiceApiConfig.

(** A timer just set is the one its id finds. *)
Lemma pending_new_timer (cb : Callback) (ms : N) (a : App) :
  well_timed a ->
  pending (snd (setTimeout cb ms a)) (fst (setTimeout cb ms a))
  = Some {| timer_id := next_timer (ui a); delay := ms; callback := cb |}.
Proof.
  intros [Hids _]. unfold pending, setTimeout. simpl.
  induction (timers (ui a)) as [|t ts IH]; simpl in *.
  - now rewrite Nat.eqb_refl.
  - destruct (timer_id t =? next_timer (ui a))%nat eqn:Hid.
    + apply Nat.eqb_eq in Hid. specialize (Hids t (or_introl eq_refl)). lia.
    + apply IH. intros t' Ht'. apply Hids. now right.
Qed.

(** [clearTimeout] of another id leaves a pending timer pending. *)
Lemma pending_clearTimeout_other (id id' : nat) (a : App) :
  id <> id' -> pending id (clearTimeout id' a) = pending id a.
Proof.
  intros Hne. unfold pending, clearTimeout. simpl.
  induction (timers (ui a)) as [|t ts IH]; simpl; auto.
  destruct (timer_id t =? id')%nat eqn:H1; simpl.
  - destruct (timer_id t =? id)%nat eqn:H2; auto.
    apply Nat.eqb_eq in H1, H2. congruence.
  - destruct (timer_id t =? id)%nat; auto.
Qed.

Lemma well_timed_same_timers (a a' : App) :
  timers (ui a') = timers (ui a) ->
  next_timer (ui a') = next_timer (ui a) ->
  recordingTimeoutRef (ui a') = recordingTimeoutRef (ui a) ->
  well_timed a -> well_timed a'.
Proof.
  unfold well_timed. intros -> -> ->. auto.
Qed.

(** What [start_try] does when the closure was not listening: either the
    recording did not start and nobody listens, or the auto-stop timer is
    set with that closure. *)
Lemma start_try_outcome (closure : Render) (field : Field) (env : Env) (a : App) :
  well_timed a ->
  let a' := start_try closure field env a in
  isListening (voiceState (current (ui a'))) = true ->
  recordingTimeoutRef (ui a') = Some (next_timer (ui a))
  /\ pending (next_timer (ui a)) a'
     = Some {| timer_id := next_timer (ui a); delay := 30000;
               callback := AutoStop closure |}.
Proof.
  intros Hwt. unfold start_try.
  destruct (VoiceAPI.startRecording _ _) as [m [e|u]]; simpl.
  - discriminate.
  - intros _. split; [reflexivity|].
    unfold pending. simpl.
    destruct Hwt as [Hids _].
    induction (timers (ui a)) as [|t ts IH]; simpl in *.
    + now rewrite Nat.eqb_refl.
    + destruct (timer_id t =? next_timer (ui a))%nat eqn:Hid.
      * apply Nat.eqb_eq in Hid. specialize (Hids t (or_introl eq_refl)). lia.
      * apply IH. intros t' Ht'. apply Hids. now right.
Qed.

(** C6, on the code.  A session started from the idle form enters
    Recording with a 30000 ms timer whose callback closes over the render
    of the click, where [isListening] is false: when the timer fires
    nothing is stopped, the form still listens and the recorder is as it
    was. *)
Theorem auto_stop_timer_of_idle_start_does_nothing (a : App) (field : Field)
    (stop_env env : Env) :
  well_timed a ->
  isListening (voiceState (current (ui a))) = false ->
  let a' := startListening cfg (current (ui a)) field stop_env env a in
  isListening (voiceState (current (ui a'))) = true ->
  exists id,
    recordingTimeoutRef (ui a') = Some id
    /\ pending id a'
       = Some {| timer_id := id; delay := 30000;
                 callback := AutoStop (current (ui a)) |}
    /\ (forall env', fire_timer cfg id env' a' = Some (clearTimeout id a'))
    /\ isListening (voiceState (current (ui (clearTimeout id a')))) = true
    /\ media (clearTimeout id a') = media a'.
Proof.
  intros Hwt Hidle a' Hlistening. subst a'.
  unfold startListening in *. rewrite Hidle in *. simpl in *.
  unfold start_permitted in *.
  assert (Hgoal : forall a0,
             well_timed a0 -> next_timer (ui a0) = next_timer (ui a) ->
             isListening (voiceState (current (ui (start_try (current (ui a)) field env a0)))) = true ->
             exists id,
               recordingTimeoutRef (ui (start_try (current (ui a)) field env a0)) = Some id
               /\ pending id (start_try (current (ui a)) field env a0)
                  = Some {| timer_id := id; delay := 30000;
                            callback := AutoStop (current (ui a)) |}
               /\ (forall env', fire_timer cfg id env' (start_try (current (ui a)) field env a0)
                                = Some (clearTimeout id (start_try (current (ui a)) field env a0)))
               /\ isListening (voiceState (current (ui (clearTimeout id
                    (start_try (current (ui a)) field env a0))))) = true
               /\ media (clearTimeout id (start_try (current (ui a)) field env a0))
                  = media (start_try (current (ui a)) field env a0)).
  { intros a0 Hwt0 Hnext Hl.
    destruct (start_try_outcome (current (ui a)) field env a0 Hwt0 Hl) as [Href Hpend].
    exists (next_timer (ui a0)). repeat split; auto.
    intros env'. unfold fire_timer. rewrite Hpend. simpl. now rewrite Hidle. }
  destruct (hasPermission (voiceState (current (ui a)))).
  - apply Hgoal; auto.
  - destruct (VoiceAPI.requestMicrophonePermission (probe env) (recorder_defined env) (media a))
      as [m granted] eqn:Hperm.
    destruct granted.
    + apply Hgoal; auto.
    + simpl in Hlistening. congruence.
Qed.

Lemma Field_eqb_eq (f g : Field) : Field_eqb f g = true <-> f = g.
Proof.
  split; [|intros ->; destruct g; reflexivity].
  destruct f, g; simpl; intros H; (reflexivity || discriminate).
Qed.

Lemma Field_eqb_neq (f g : Field) : f <> g -> Field_eqb f g = false.
Proof.
  intros H. destruct (Field_eqb f g) eqn:Heq; auto.
  apply Field_eqb_eq in Heq. contradiction.
Qed.

Lemma success_notice_nonempty (c : value) : success_notice c <> "".
Proof. unfold success_notice, check_mark. simpl. discriminate. Qed.



End Form.

(** The idle form, mounted with the microphone granted; a click on the
    microphone of the chief complaint; the timer (id 1) fires. *)
Lemma auto_stop_timer_of_idle_start_does_nothing_witness :
  VoiceIntakeForm.fire_timer (E := Sample.engine) Sample.both_keys 1 Sample.granted
    Sample.listening
  = Some (VoiceIntakeForm.clearTimeout 1 Sample.listening)
  /\ VoiceIntakeForm.isListening
       (VoiceIntakeForm.voiceState
          (VoiceIntakeForm.current
             (VoiceIntakeForm.ui (VoiceIntakeForm.clearTimeout 1 Sample.listening))))
     = true.
Proof.
  assert (Hwt : VoiceIntakeForm.well_timed Sample.mounted).
  { split; simpl; [intros t []|discriminate]. }
  destruct (auto_stop_timer_of_idle_start_does_nothing (E := Sample.engine)
              Sample.both_keys Sample.mounted VoiceIntakeForm.chiefComplaint
              Sample.granted Sample.granted Hwt eq_refl eq_refl)
    as [id [Href [_ [Hfire [Hl _]]]]].
  vm_compute in Href. inversion Href; subst id.
  split; [exact (Hfire Sample.granted) | exact Hl].
Defined.



(* ===================================================================== *)
(** ** Capture, relay version *)
(* ===================================================================== *)

(** C3 fails on the relay version: its [startRecording] does not test
    [isRecording].  Called while a recording is open, it returns normally
    and opens a second stream and a second recorder: two recorders record,
    two tracks are live. *)
Theorem relay_second_start_opens_a_second_stream :
  exists s1 s2,
    RelayVoiceAPI.startRecording Sample.one_track Media.initial = (s1, inr tt)
    /\ isRecording (service s1) = true
    /\ RelayVoiceAPI.startRecording Sample.one_track s1 = (s2, inr tt)
    /\ List.length (recording_recorders s1) = 1
    /\ List.length (recording_recorders s2) = 2
    /\ live_tracks s2 = 2.
Proof.
  eexists _, _. split; [vm_compute; reflexivity|].
  split; [reflexivity|]. split; [vm_compute; reflexivity|].
  repeat split.
Qed.

(** C4 fails on the relay version: its [stopRecording] tests
    [mediaRecorder] only, which stays set after a recording.  After one
    recording has been started, stopped and finalized, nothing records;
    a further [stopRecording] is not rejected with "Not recording": it
    calls [stop()] on the inactive recorder, and its promise stays pending
    where that does nothing, or is rejected with the engine's
    [InvalidStateError] where that throws. *)
Theorem relay_stop_without_recording_is_not_rejected :
  exists s,
    RelayVoiceAPI.run (E := Sample.engine)
      [RelayVoiceAPI.Start Sample.one_track;
       RelayVoiceAPI.Stop;
       RelayVoiceAPI.Fire (DataAvailable 0 Sample.chunk);
       RelayVoiceAPI.Fire (Stopped 0)] Media.initial = Some s
    /\ isRecording (service s) = false
    /\ recording_recorders s = []
    /\ nth_error (promises s) 0
       = Some (Some (inr (new_Blob [Sample.chunk] "audio/webm")))
    /\ (let (s', p) := RelayVoiceAPI.stopRecording (E := Sample.engine) s in
        nth_error (promises s') p = Some None)
    /\ (let (s', p) := RelayVoiceAPI.stopRecording (E := Sample.throwing_engine) s in
        nth_error (promises s') p
        = Some (Some (inl (Error "Failed to execute 'stop' on 'MediaRecorder': The MediaRecorder's state is 'inactive'.")))).
Proof.
  eexists. split; [vm_compute; reflexivity|].
  repeat split; vm_compute; reflexivity.
Qed.

(* ===================================================================== *)
(** ** Capture, provider version: one stream, released once *)
(* ===================================================================== *)


Section OneStream.
Import VoiceAPI.
Context {E : Engine}.





(** With nothing recording, [stopRecording] rejects its promise at once
    with "Not currently recording" and touches nothing else. *)
Theorem stopRecording_rejected_when_idle (s : System) :
  mediaRecorder (service s) = None \/ isRecording (service s) = false ->
  let (s', p) := stopRecording s in
  nth_error (promises s') p = Some (Some (inl (Error "Not currently recording")))
  /\ service s' = service s
  /\ tracks s' = tracks s
  /\ recorders s' = recorders s.
Proof.
  intros Hidle. unfold stopRecording, new_promise. simpl.
  assert (Hp : nth_error
                 (update (List.length (promises s))
                    (fun old => match old with
                                | None => Some (inl (Error "Not currently recording"))
                                | Some _ => old
                                end) (promises s ++ [None])) (List.length (promises s))
               = Some (Some (inl (Error "Not currently recording")))).
  { rewrite update_app_last. apply nth_error_app_last. }
  destruct (mediaRecorder (service s)) as [r|]; [|simpl; auto].
  destruct (isRecording (service s)); [|simpl; auto].
  destruct Hidle; discriminate.
Qed.

End OneStream.








Lemma stopRecording_rejected_when_idle_witness :
  nth_error (promises (fst (VoiceAPI.stopRecording (E := Sample.engine) Sample.stopped))) 1
  = Some (Some (inl (Error "Not currently recording"))).
Proof.
  pose proof (stopRecording_rejected_when_idle (E := Sample.engine) Sample.stopped
                (or_intror eq_refl)) as H.
  destruct (VoiceAPI.stopRecording (E := Sample.engine) Sample.stopped) as [s' p] eqn:Hs.
  assert (Hp : p = 1) by (vm_compute in Hs; now inversion Hs).
  subst p. exact (proj1 H).
Defined.

(* ===================================================================== *)
(** ** Capture, provider version: what is released and what is not *)
(* ===================================================================== *)

(** Stopping the tracks of a stream just opened: the old tracks are as
    they were, each new one has been stopped once. *)
Lemma stop_opened_tracks (ts : list nat) (n : nat) :
  stop_tracks (seq (List.length ts) n) (ts ++ repeat 0 n) = (ts ++ repeat 1 n)%list.
Proof.
  apply nth_error_ext. intros i.
  destruct (Nat.lt_ge_cases i (List.length ts)) as [Hlt|Hge].
  - rewrite nth_error_stop_tracks_other by (rewrite in_seq; lia).
    now rewrite !nth_error_app1.
  - destruct (Nat.lt_ge_cases i (List.length ts + n)) as [Hin|Hout].
    + rewrite nth_error_stop_tracks_in
        by (auto using seq_NoDup; rewrite in_seq; lia).
      rewrite !nth_error_app2 by assumption.
      rewrite !nth_error_repeat by lia. reflexivity.
    + rewrite nth_error_stop_tracks_other by (rewrite in_seq; lia).
      transitivity (@None nat); [|symmetry];
        apply nth_error_None; rewrite length_app, repeat_length; lia.
Qed.

Lemma live_repeat_zero (n : nat) :
  List.length (filter (fun stops => (stops =? 0)%nat) (repeat 0 n)) = n.
Proof. induction n; simpl; auto. Qed.

Lemma live_repeat_one (n : nat) :
  filter (fun stops => (stops =? 0)%nat) (repeat 1 n) = [].
Proof. induction n; simpl; auto. Qed.

Section Release.
Import VoiceAPI.

(** [requestMicrophonePermission] answers [true] exactly when
    [getUserMedia] resolves in a browser that has [MediaRecorder], and
    then its probe stream is released: as many tracks are live as before.
    Where [MediaRecorder] is missing the probe's tracks stay live.  The
    service and the recorders are untouched either way. *)
Theorem permission_probe_is_released (probe : throws nat) (known : bool) (s : System) :
  let (s', granted) := requestMicrophonePermission probe known s in
  granted = match probe with inr _ => known | inl _ => false end
  /\ live_tracks s'
     = live_tracks s + match probe with
                       | inr n => if known then 0 else n
                       | inl _ => 0
                       end
  /\ service s' = service s
  /\ recorders s' = recorders s.
Proof.
  destruct probe as [e|n]; simpl; [auto|].
  destruct known; unfold live_tracks; simpl.
  - rewrite stop_opened_tracks.
    rewrite filter_app, live_repeat_one, app_nil_r. auto.
  - rewrite filter_app, length_app, live_repeat_zero. auto.
Qed.

(** [startRecording] that throws after [getUserMedia] resolved (the
    recorder cannot be constructed, or cannot start) leaves the tracks it
    acquired live: nothing stops them, and [isRecording] stays false. *)
Theorem startRecording_failure_keeps_stream_open (env : StartEnv) (s : System)
    (n : nat) :
  isRecording (service s) = false ->
  getUserMedia env = inr n ->
  isTypeSupported env (choose_mimeType env) = false \/ start_error env <> None ->
  let (s', outcome) := startRecording env s in
  (exists e, outcome = inl e)
  /\ live_tracks s' = live_tracks s + n
  /\ isRecording (service s') = false.
Proof.
  intros Hidle Hgum Hfail. unfold startRecording. rewrite Hidle, Hgum.
  unfold open_stream, new_MediaRecorder, recorder_start, live_tracks. simpl.
  destruct (isTypeSupported env (choose_mimeType env)); simpl.
  - destruct (start_error env) as [e|]; simpl.
    + split; [eauto|]. rewrite filter_app, length_app, live_repeat_zero. auto.
    + destruct Hfail as [Hf|Hf]; [discriminate | contradiction].
  - split; [eauto|]. rewrite filter_app, length_app, live_repeat_zero. auto.
Qed.

(** The format chosen is supported whenever one of the four formats the
    code knows is, and opus-in-webm is chosen whenever it is supported. *)
Theorem choose_mimeType_supported (env : StartEnv) :
  (isTypeSupported env "audio/webm;codecs=opus" = true
   \/ isTypeSupported env "audio/mp4" = true
   \/ isTypeSupported env "audio/wav" = true
   \/ isTypeSupported env "audio/webm" = true) ->
  isTypeSupported env (choose_mimeType env) = true
  /\ (isTypeSupported env "audio/webm;codecs=opus" = true ->
      choose_mimeType env = "audio/webm;codecs=opus").
Proof.
  intros H. unfold choose_mimeType.
  destruct (isTypeSupported env "audio/webm;codecs=opus") eqn:H1; [auto|].
  destruct (isTypeSupported env "audio/mp4") eqn:H2; [split; [auto|discriminate]|].
  destruct (isTypeSupported env "audio/wav") eqn:H3; [split; [auto|discriminate]|].
  split; [|discriminate].
  destruct H as [H|[H|[H|H]]]; try discriminate. exact H.
Qed.

(** A successful [startRecording] drops the chunks of the recording
    before, and records with the chosen format on the stream just
    opened. *)
Theorem startRecording_success (env : StartEnv) (s : System) (n : nat) :
  isRecording (service s) = false ->
  getUserMedia env = inr n ->
  isTypeSupported env (choose_mimeType env) = true ->
  start_error env = None ->
  let (s', outcome) := startRecording env s in
  outcome = inr tt
  /\ service s' = {| mediaRecorder := Some (List.length (recorders s));
                     audioChunks := [];
                     isRecording := true |}
  /\ nth_error (recorders s') (List.length (recorders s))
     = Some {| stream := seq (List.length (tracks s)) n;
               mimeType := choose_mimeType env;
               state := Recording; stopping := false;
               ondataavailable := true; onstop := None; onerror := None |}
  /\ live_tracks s' = live_tracks s + n.
Proof.
  intros Hidle Hgum Hsup Hstart. unfold startRecording. rewrite Hidle, Hgum.
  unfold open_stream, new_MediaRecorder, recorder_start, live_tracks. simpl.
  rewrite Hsup, Hstart. simpl. rewrite !update_app_last.
  rewrite nth_error_app_last. simpl.
  rewrite filter_app, length_app, live_repeat_zero. auto.
Qed.

End Release.

Lemma startRecording_failure_keeps_stream_open_witness :
  live_tracks (fst (VoiceAPI.startRecording Sample.no_format Sample.stopped))
  = live_tracks Sample.stopped + 1.
Proof.
  pose proof (startRecording_failure_keeps_stream_open Sample.no_format Sample.stopped 1
                eq_refl eq_refl (or_introl eq_refl)) as H.
  destruct (VoiceAPI.startRecording Sample.no_format Sample.stopped) as [s' outcome].
  exact (proj1 (proj2 H)).
Defined.

Lemma startRecording_success_witness :
  snd (VoiceAPI.startRecording Sample.one_track Sample.stopped) = inr tt.
Proof.
  pose proof (startRecording_success Sample.one_track Sample.stopped 1
                eq_refl eq_refl eq_refl eq_refl) as H.
  destruct (VoiceAPI.startRecording Sample.one_track Sample.stopped) as [s' outcome].
  exact (proj1 H).
Defined.

Lemma choose_mimeType_supported_witness :
  isTypeSupported Sample.one_track (VoiceAPI.choose_mimeType Sample.one_track) = true
  /\ (isTypeSupported Sample.one_track "audio/webm;codecs=opus" = true ->
      VoiceAPI.choose_mimeType Sample.one_track = "audio/webm;codecs=opus").
Proof.
  exact (choose_mimeType_supported Sample.one_track (or_introl eq_refl)).
Defined.

(* ===================================================================== *)
(** ** The transcription client: what a caller can rely on *)
(* ===================================================================== *)

Section Client.
Import VoiceAPI.
Context {E : Engine}.
Variables (cfg : VoiceApiConfig) (net : Network) (audioBlob : Blob).

(** [transcribe] never throws, whatever the network and the bodies do, and
    what it returns either has no error or is a failure with an empty
    text and a message that is not empty. *)
Theorem transcribe_returns (preferred : Service) (log : list Request) :
  exists r log',
    transcribe cfg net audioBlob preferred log = (inr r, log')
    /\ well_formed r.
Proof.
  destruct (adapter_returns cfg net audioBlob preferred log) as (r1 & log1 & H1).
  destruct (truthy (error r1)) eqn:Herr.
  - destruct (adapter_returns cfg net audioBlob (other preferred) log1)
      as (r2 & log2 & H2).
    exists r2, log2. split.
    + rewrite (transcribe_after_failure cfg net audioBlob preferred log log1 r1 H1 Herr).
      exact H2.
    + eapply adapter_well_formed. exact H2.
  - exists r1, log1. split.
    + now apply transcribe_without_failure.
    + eapply adapter_well_formed. exact H1.
Qed.

(** [transcribe] returns an error only when both providers failed: the
    preferred one first, then the other, whose result it is. *)
Theorem transcribe_error_means_both_failed (preferred : Service)
    (log log' : list Request) (r : VoiceTranscriptionResult) :
  transcribe cfg net audioBlob preferred log = (inr r, log') ->
  truthy (error r) = true ->
  exists r1 log1,
    adapter preferred cfg net audioBlob log = (inr r1, log1)
    /\ truthy (error r1) = true
    /\ adapter (other preferred) cfg net audioBlob log1 = (inr r, log').
Proof.
  intros Ht Herr.
  destruct (adapter_returns cfg net audioBlob preferred log) as (r1 & log1 & H1).
  exists r1, log1. split; [exact H1|].
  destruct (truthy (error r1)) eqn:Herr1.
  - split; [reflexivity|].
    now rewrite <- (transcribe_after_failure cfg net audioBlob preferred log log1 r1 H1 Herr1).
  - rewrite (transcribe_without_failure cfg net audioBlob preferred log log1 r1 H1 Herr1) in Ht.
    inversion Ht; subst. congruence.
Qed.

(** [transcribe] sends at most two requests, at most one to each provider,
    the preferred one's first; there is no retry. *)
Theorem transcribe_sends_at_most_one_request_each (preferred : Service)
    (log log' : list Request) (x : throws VoiceTranscriptionResult) :
  transcribe cfg net audioBlob preferred log = (x, log') ->
  exists first second,
    log' = (log ++ first ++ second)%list
    /\ (first = [] \/ exists req, first = [req]
                                  /\ request_of cfg audioBlob preferred req)
    /\ (second = [] \/ exists req, second = [req]
                                   /\ request_of cfg audioBlob (other preferred) req).
Proof.
  intros Ht.
  destruct (adapter_returns cfg net audioBlob preferred log) as (r1 & log1 & H1).
  pose proof (adapter_log cfg net audioBlob preferred log log1 _ H1) as Hl1.
  destruct (truthy (error r1)) eqn:Herr.
  - rewrite (transcribe_after_failure cfg net audioBlob preferred log log1 r1 H1 Herr) in Ht.
    pose proof (adapter_log cfg net audioBlob (other preferred) log1 log' _ Ht) as Hl2.
    destruct Hl1 as [->|(req1 & -> & Hreq1)], Hl2 as [->|(req2 & -> & Hreq2)].
    + exists [], []. rewrite !app_nil_r. auto.
    + exists [], [req2]. simpl. split; [reflexivity|]. split; [auto|]. right. eauto.
    + exists [req1], []. rewrite app_nil_r. split; [reflexivity|].
      split; [right; eauto | auto].
    + exists [req1], [req2]. rewrite <- app_assoc. split; [reflexivity|].
      split; right; eauto.
  - rewrite (transcribe_without_failure cfg net audioBlob preferred log log1 r1 H1 Herr) in Ht.
    inversion Ht; subst.
    destruct Hl1 as [->|(req1 & -> & Hreq1)].
    + exists [], []. rewrite !app_nil_r. auto.
    + exists [req1], []. rewrite app_nil_r. split; [reflexivity|].
      split; [right; eauto | auto].
Qed.

(** A reply of OpenAI outside 2xx is a failure whose message gives the
    status and the provider's own [error.message] when the body has one,
    the status text when the body is not JSON. *)
Theorem openai_http_error_message (log : list Request) (key : string)
    (response : Response) :
  present (apiKey (openai cfg)) = Some key ->
  net (openai_request cfg key audioBlob) = inr response ->
  ok response = false ->
  (forall detail fields,
     json response = inr (VObj [("error", VObj (("message", VStr detail) :: fields))]) ->
     detail <> "" ->
     transcribeWithOpenAI cfg net audioBlob log
     = (inr (failure ("OpenAI API error: " ++ string_of_nat (status response)
                      ++ " - " ++ detail)),
        (log ++ [openai_request cfg key audioBlob])%list))
  /\ (forall e,
        json response = inl e ->
        transcribeWithOpenAI cfg net audioBlob log
        = (inr (failure ("OpenAI API error: " ++ string_of_nat (status response)
                         ++ " - " ++ statusText response)),
           (log ++ [openai_request cfg key audioBlob])%list)).
Proof.
  intros Hkey Hnet Hok. split.
  - intros detail fields Hjson Hne.
    unfold transcribeWithOpenAI. rewrite Hkey.
    unfold try_catch, throw_api_error. eff. rewrite Hnet, Hok, Hjson. simpl.
    unfold or. simpl.
    destruct (detail =? "") eqn:Hd; [apply String.eqb_eq in Hd; contradiction|].
    simpl. reflexivity.
  - intros e Hjson.
    unfold transcribeWithOpenAI. rewrite Hkey.
    unfold try_catch, throw_api_error. eff. rewrite Hnet, Hok, Hjson. simpl.
    reflexivity.
Qed.

(** A [fetch] that rejects is a failure carrying the rejection's message,
    or the adapter's own text when that message is empty; the one request
    has been sent. *)
Theorem openai_network_error_message (log : list Request) (key : string) (e : exn) :
  present (apiKey (openai cfg)) = Some key ->
  net (openai_request cfg key audioBlob) = inl e ->
  transcribeWithOpenAI cfg net audioBlob log
  = (inr (failure (if message e =? "" then "Failed to transcribe audio with OpenAI"
                   else message e)),
     (log ++ [openai_request cfg key audioBlob])%list).
Proof.
  intros Hkey Hnet. unfold transcribeWithOpenAI. rewrite Hkey.
  unfold try_catch. eff. rewrite Hnet. reflexivity.
Qed.

(** A 2xx reply of Gemini with results: the transcript of the first
    alternative of the first result, and its confidence, 0.5 when that is
    missing or zero. *)
Theorem gemini_takes_first_alternative (log : list Request) (key b64 : string)
    (response : Response) (fields first_result alternative : list (string * value))
    (more_results more_alternatives : list value) :
  present (apiKey (gemini cfg)) = Some key ->
  btoa_spread (blob_data audioBlob) = inr b64 ->
  net (gemini_request cfg key b64) = inr response ->
  ok response = true ->
  json response = inr (VObj fields) ->
  assoc "results" fields = VArr (VObj first_result :: more_results) ->
  assoc "alternatives" first_result = VArr (VObj alternative :: more_alternatives) ->
  transcribeWithGemini cfg net audioBlob log
  = (inr {| text := or (assoc "transcript" alternative) (VStr "");
            confidence := or (assoc "confidence" alternative) (VNum (1 # 2));
            error := VUndef |},
     (log ++ [gemini_request cfg key b64])%list).
Proof.
  intros Hkey Hb64 Hnet Hok Hjson Hres Halt.
  unfold transcribeWithGemini. rewrite Hkey.
  unfold try_catch, gemini_result. eff.
  rewrite Hb64, Hnet, Hok, Hjson. simpl. rewrite Hres. simpl.
  rewrite Halt. simpl. reflexivity.
Qed.

End Client.

Lemma transcribe_error_means_both_failed_witness :
  exists r1 log1,
    VoiceAPI.adapter (E := Sample.engine) VoiceAPI.OpenAI Sample.both_keys
      Sample.all_down Sample.audio [] = (inr r1, log1)
    /\ truthy (VoiceAPI.error r1) = true
    /\ VoiceAPI.adapter (E := Sample.engine) VoiceAPI.Gemini Sample.both_keys
         Sample.all_down Sample.audio log1
       = (inr (VoiceAPI.failure "Gemini API error: 503 - Service Unavailable"),
          [VoiceAPI.openai_request Sample.both_keys "sk-test" Sample.audio;
           VoiceAPI.gemini_request (E := Sample.engine) Sample.both_keys "g-test"
             (Sample.base64 (blob_data Sample.audio))]).
Proof.
  apply (transcribe_error_means_both_failed (E := Sample.engine) Sample.both_keys
           Sample.all_down Sample.audio VoiceAPI.OpenAI []).
  - vm_compute. reflexivity.
  - reflexivity.
Defined.

Lemma transcribe_sends_at_most_one_request_each_witness :
  exists first second,
    [VoiceAPI.openai_request Sample.both_keys "sk-test" Sample.audio;
     VoiceAPI.gemini_request (E := Sample.engine) Sample.both_keys "g-test"
       (Sample.base64 (blob_data Sample.audio))]
    = ([] ++ first ++ second)%list
    /\ (first = [] \/ exists req, first = [req]
          /\ VoiceAPI.request_of (E := Sample.engine) Sample.both_keys Sample.audio
               VoiceAPI.OpenAI req)
    /\ (second = [] \/ exists req, second = [req]
          /\ VoiceAPI.request_of (E := Sample.engine) Sample.both_keys Sample.audio
               VoiceAPI.Gemini req).
Proof.
  eapply (transcribe_sends_at_most_one_request_each (E := Sample.engine)
            Sample.both_keys Sample.all_down Sample.audio VoiceAPI.OpenAI []).
  vm_compute. reflexivity.
Defined.

Lemma openai_http_error_message_witness :
  VoiceAPI.transcribeWithOpenAI (E := Sample.engine) Sample.both_keys
    Sample.openai_down Sample.audio []
  = (inr (VoiceAPI.failure "OpenAI API error: 500 - The server had an error"),
     [VoiceAPI.openai_request Sample.both_keys "sk-test" Sample.audio]).
Proof.
  apply (proj1 (openai_http_error_message (E := Sample.engine) Sample.both_keys
                  Sample.openai_down Sample.audio [] "sk-test" _
                  eq_refl eq_refl eq_refl)
           "The server had an error" []).
  - reflexivity.
  - discriminate.
Defined.

Lemma openai_network_error_message_witness :
  VoiceAPI.transcribeWithOpenAI (E := Sample.engine) Sample.both_keys
    (fun _ => inl (Error "Failed to fetch")) Sample.audio []
  = (inr (VoiceAPI.failure "Failed to fetch"),
     [VoiceAPI.openai_request Sample.both_keys "sk-test" Sample.audio]).
Proof.
  apply (openai_network_error_message (E := Sample.engine) Sample.both_keys
           (fun _ => inl (Error "Failed to fetch")) Sample.audio [] "sk-test"
           (Error "Failed to fetch") eq_refl eq_refl).
Defined.

Lemma gemini_takes_first_alternative_witness :
  fst (VoiceAPI.transcribeWithGemini (E := Sample.engine) Sample.both_keys
         Sample.openai_down Sample.audio [])
  = inr {| VoiceAPI.text := VStr "fever for two days";
           VoiceAPI.confidence := VNum (7 # 8);
           VoiceAPI.error := VUndef |}.
Proof.
  erewrite (gemini_takes_first_alternative (E := Sample.engine) Sample.both_keys
              Sample.openai_down Sample.audio [] "g-test"
              (Sample.base64 (blob_data Sample.audio)));
    try reflexivity.
  vm_compute. reflexivity.
Defined.

(* ===================================================================== *)
(** ** The relay server: which prompt, which reply *)
(* ===================================================================== *)

Section RelayReplies.
Import RelayServer.
Context {E : Engine}.
Variable net : Network.

(** A body with a usable prompt is forwarded once, with that prompt, and
    answered 200 or 500.  The prompt is the message as it came when there
    is no audio, and the transcription phrase around the audio when there
    is, whatever the message. *)
Theorem chat_forwards_the_prompt_once (req_body message audioBase64 : value)
    (log : list Request) :
  get req_body "message" = inr message ->
  get req_body "audioBase64" = inr audioBase64 ->
  truthy (prompt_of message audioBase64) = true ->
  (exists reply,
     chat net req_body log
     = (inr reply, (log ++ [generate_request (prompt_of message audioBase64)])%list)
     /\ (code reply = 200 \/ reply = unreachable))
  /\ (truthy audioBase64 = false -> prompt_of message audioBase64 = message)
  /\ (truthy audioBase64 = true ->
      prompt_of message audioBase64
      = VStr ("Transcribe this patient audio (base64-encoded): "
              ++ to_string audioBase64)).
Proof.
  intros Hm Ha Hp. split; [|split].
  - unfold chat. eff. rewrite Hm, Ha, Hp. simpl.
    destruct (net _) as [e|response]; [eauto|].
    destruct (json response) as [e|data]; [eauto|].
    destruct (get data "response") as [e|r]; [eauto|].
    destruct (nullish r); [eauto|].
    destruct (call_trim r) as [e|trimmed]; eauto.
  - intros Hfalse. unfold prompt_of. now rewrite Hfalse.
  - intros Htrue. unfold prompt_of. now rewrite Htrue.
Qed.

(** The reply is 400 exactly when the prompt is unusable (no audio, and no
    message or an empty one), and exactly then nothing is forwarded. *)
Theorem chat_answers_400_iff_no_prompt (req_body message audioBase64 : value)
    (log log' : list Request) (reply : Reply) :
  get req_body "message" = inr message ->
  get req_body "audioBase64" = inr audioBase64 ->
  chat net req_body log = (inr reply, log') ->
  (code reply = 400 <-> truthy (prompt_of message audioBase64) = false)
  /\ (log' = log <-> truthy (prompt_of message audioBase64) = false).
Proof.
  intros Hm Ha. unfold chat. eff. rewrite Hm, Ha.
  destruct (truthy (prompt_of message audioBase64)) eqn:Hp; simpl.
  - intros H.
    assert (Hcode : code reply = 200 \/ code reply = 500).
    { revert H. destruct (net _) as [e|response]; [intros H; inversion H; auto|].
      destruct (json response) as [e|data]; [intros H; inversion H; auto|].
      destruct (get data "response") as [e|r]; [intros H; inversion H; auto|].
      destruct (nullish r); [intros H; inversion H; auto|].
      destruct (call_trim r) as [e|trimmed]; intros H; inversion H; auto. }
    assert (Hlog : log' = (log ++ [generate_request (prompt_of message audioBase64)])%list).
    { revert H. destruct (net _) as [e|response]; [intros H; now inversion H|].
      destruct (json response) as [e|data]; [intros H; now inversion H|].
      destruct (get data "response") as [e|r]; [intros H; now inversion H|].
      destruct (nullish r); [intros H; now inversion H|].
      destruct (call_trim r) as [e|trimmed]; intros H; now inversion H. }
    split; split; intros Habs; try discriminate.
    + destruct Hcode; congruence.
    + rewrite Hlog in Habs.
      apply (f_equal (@List.length Request)) in Habs.
      rewrite length_app in Habs. simpl in Habs. lia.
  - intros H. inversion H; subst. simpl. split; split; auto.
Qed.

(** When the model answers with a JSON body whose [response] is a string,
    the reply is 200 with that string trimmed, whatever the status of the
    model's answer. *)
Theorem chat_replies_with_trimmed_response (req_body message audioBase64 data : value)
    (log : list Request) (response : Response) (answer : string) :
  get req_body "message" = inr message ->
  get req_body "audioBase64" = inr audioBase64 ->
  truthy (prompt_of message audioBase64) = true ->
  net (generate_request (prompt_of message audioBase64)) = inr response ->
  json response = inr data ->
  get data "response" = inr (VStr answer) ->
  chat net req_body log
  = (inr {| code := 200; payload := VObj [("response", VStr (trim answer))] |},
     (log ++ [generate_request (prompt_of message audioBase64)])%list).
Proof.
  intros Hm Ha Hp Hnet Hjson Hr.
  unfold chat. eff. rewrite Hm, Ha, Hp. simpl.
  rewrite Hnet, Hjson, Hr. simpl.
  unfold or. simpl. destruct (trim answer =? "") eqn:Ht; simpl.
  - apply String.eqb_eq in Ht. now rewrite Ht.
  - reflexivity.
Qed.

(** When the model cannot be reached, or answers with something that is
    not JSON, the reply is 500 with the fixed text. *)
Theorem chat_replies_500_when_model_fails (req_body message audioBase64 : value)
    (log : list Request) :
  get req_body "message" = inr message ->
  get req_body "audioBase64" = inr audioBase64 ->
  truthy (prompt_of message audioBase64) = true ->
  (exists e, net (generate_request (prompt_of message audioBase64)) = inl e)
  \/ (exists response e,
        net (generate_request (prompt_of message audioBase64)) = inr response
        /\ json response = inl e) ->
  chat net req_body log
  = (inr {| code := 500;
            payload := VObj [("response", VStr "Error: Unable to reach AI model.")] |},
     (log ++ [generate_request (prompt_of message audioBase64)])%list).
Proof.
  intros Hm Ha Hp Hfail.
  unfold chat. eff. rewrite Hm, Ha, Hp. simpl.
  destruct Hfail as [[e Hnet] | (response & e & Hnet & Hjson)].
  - rewrite Hnet. reflexivity.
  - rewrite Hnet, Hjson. reflexivity.
Qed.

End RelayReplies.

(** The scenario of the specification: [{message: "hello"}] is forwarded
    with the prompt "hello". *)
Lemma chat_forwards_the_prompt_once_witness :
  snd (RelayServer.chat (E := Sample.engine) Sample.openai_hears
         (VObj [("message", VStr "hello")]) [])
  = [RelayServer.generate_request (E := Sample.engine) (VStr "hello")].
Proof.
  destruct (proj1 (chat_forwards_the_prompt_once (E := Sample.engine)
                     Sample.openai_hears (VObj [("message", VStr "hello")])
                     (VStr "hello") VUndef [] eq_refl eq_refl eq_refl))
    as [reply [Hrun _]].
  rewrite Hrun. reflexivity.
Defined.

Lemma chat_answers_400_iff_no_prompt_witness :
  RelayServer.code RelayServer.missing_fields = 400
  <-> truthy (RelayServer.prompt_of (E := Sample.engine) (VStr "") VUndef) = false.
Proof.
  apply (chat_answers_400_iff_no_prompt (E := Sample.engine) Sample.openai_hears
           (VObj [("message", VStr "")]) (VStr "") VUndef [] []
           RelayServer.missing_fields eq_refl eq_refl eq_refl).
Defined.

Lemma chat_replies_with_trimmed_response_witness :
  fst (RelayServer.chat (E := Sample.engine)
         (fun _ => Sample.respond 200 "OK" (VObj [("response", VStr " Rest and fluids. ")]))
         (VObj [("message", VStr "hello")]) [])
  = inr {| RelayServer.code := 200;
           RelayServer.payload := VObj [("response", VStr "Rest and fluids.")] |}.
Proof.
  rewrite (chat_replies_with_trimmed_response (E := Sample.engine)
             (fun _ => Sample.respond 200 "OK" (VObj [("response", VStr " Rest and fluids. ")]))
             (VObj [("message", VStr "hello")]) (VStr "hello") VUndef
             (VObj [("response", VStr " Rest and fluids. ")]) []
             {| status := 200; statusText := "OK";
                json := inr (VObj [("response", VStr " Rest and fluids. ")]) |}
             " Rest and fluids. " eq_refl eq_refl eq_refl eq_refl eq_refl eq_refl).
  reflexivity.
Defined.

Lemma chat_replies_500_when_model_fails_witness :
  fst (RelayServer.chat (E := Sample.engine) (fun _ => inl (Error "fetch failed"))
         (VObj [("message", VStr "hello")]) [])
  = inr RelayServer.unreachable.
Proof.
  erewrite (chat_replies_500_when_model_fails (E := Sample.engine)
              (fun _ => inl (Error "fetch failed"))
              (VObj [("message", VStr "hello")]) (VStr "hello") VUndef);
    try reflexivity.
  left. eexists. reflexivity.
Defined.

(* ===================================================================== *)
(** ** The relay version of the client *)
(* ===================================================================== *)

Section RelayClient.
Import RelayVoiceAPI.
Context {E : Engine}.

(** The relay version's [startRecording] never refuses: whenever the
    browser gives a stream and records [audio/webm], it returns normally,
    whether or not a recording is open, and one more recorder records;
    the recorders there were are as they were. *)
Theorem relay_startRecording_never_refuses (env : StartEnv) (s : System) (n : nat) :
  getUserMedia env = inr n ->
  isTypeSupported env "audio/webm" = true ->
  start_error env = None ->
  let (s', outcome) := startRecording env s in
  outcome = inr tt
  /\ recorders s'
     = (recorders s ++ [{| stream := seq (List.length (tracks s)) n;
                           mimeType := "audio/webm";
                           state := Recording; stopping := false;
                           ondataavailable := true; onstop := None;
                           onerror := None |}])%list
  /\ List.length (recording_recorders s') = S (List.length (recording_recorders s))
  /\ live_tracks s' = live_tracks s + n.
Proof.
  intros Hgum Hsup Hstart. unfold startRecording. rewrite Hgum.
  unfold open_stream, new_MediaRecorder, recorder_start. simpl.
  rewrite Hsup, Hstart. simpl.
  unfold recording_recorders, live_tracks, set_recorder, set_service. simpl.
  rewrite !update_app_last. simpl.
  rewrite !filter_app, !length_app, live_repeat_zero. simpl.
  repeat split; lia.
Qed.

(** The relay version's [transcribe] does not look at the status of the
    reply: whatever the relay put in [response] is the transcript, with no
    error.  So the relay's own refusals come back as transcripts: its 400
    as "No message or audioBase64 provided.", its 500 as "Error: Unable to
    reach AI model.". *)
Theorem relay_transcribe_takes_any_reply (net : Network) (audioBlob : Blob)
    (base64 : value) (log : list Request) (reply : RelayServer.Reply)
    (reason : string) (said : string) :
  blobToBase64 audioBlob = Some base64 ->
  net (chat_request base64)
  = inr {| status := RelayServer.code reply; statusText := reason;
           json := inr (RelayServer.payload reply) |} ->
  RelayServer.payload reply = VObj [("response", VStr said)] ->
  said <> "" ->
  transcribe net audioBlob log
  = (inr {| VoiceAPI.text := VStr said; VoiceAPI.confidence := VNum 1;
            VoiceAPI.error := VUndef |},
     (log ++ [chat_request base64])%list).
Proof.
  intros Hb Hnet Hpayload Hne. unfold transcribe. rewrite Hb.
  unfold try_catch. eff. rewrite Hnet. simpl. rewrite Hpayload. simpl.
  unfold or. simpl.
  destruct (said =? "") eqn:Hs; [apply String.eqb_eq in Hs; contradiction|].
  reflexivity.
Qed.

End RelayClient.

Lemma relay_startRecording_never_refuses_witness :
  snd (RelayVoiceAPI.startRecording Sample.one_track Sample.recording) = inr tt.
Proof.
  pose proof (relay_startRecording_never_refuses Sample.one_track Sample.recording 1
                eq_refl eq_refl eq_refl) as H.
  destruct (RelayVoiceAPI.startRecording Sample.one_track Sample.recording)
    as [s' outcome].
  exact (proj1 H).
Defined.

(** The relay cannot reach the model: the client hands the relay's error
    text to its caller as the transcript. *)
Lemma relay_transcribe_takes_any_reply_witness :
  fst (RelayVoiceAPI.transcribe (E := Sample.engine)
         (fun _ => inr {| status := 500; statusText := "Internal Server Error";
                          json := inr (RelayServer.payload RelayServer.unreachable) |})
         Sample.audio [])
  = inr {| VoiceAPI.text := VStr "Error: Unable to reach AI model.";
           VoiceAPI.confidence := VNum 1;
           VoiceAPI.error := VUndef |}.
Proof.
  rewrite (relay_transcribe_takes_any_reply (E := Sample.engine)
             (fun _ => inr {| status := 500; statusText := "Internal Server Error";
                              json := inr (RelayServer.payload RelayServer.unreachable) |})
             Sample.audio (VStr (Sample.base64 (blob_data Sample.audio))) []
             RelayServer.unreachable "Internal Server Error"
             "Error: Unable to reach AI model."
             eq_refl eq_refl eq_refl).
  - reflexivity.
  - discriminate.
Defined.

(* ===================================================================== *)
(** ** The intake form: timers, notices, fields *)
(* ===================================================================== *)

Section FormStates.
Import VoiceIntakeForm.
Context {E : Engine}.
Variable cfg : VoiceAPI.VoiceApiConfig.

Lemma well_timed_setTimeout (cb : Callback) (ms : N) (a : App) :
  well_timed a -> well_timed (fst (setTimeout cb ms a)).
Proof.
  intros [Hids Href]. split; simpl.
  - intros t Ht. apply in_app_iff in Ht. destruct Ht as [Ht|[<-|[]]].
    + specialize (Hids t Ht). lia.
    + simpl. lia.
  - intros id Hid. specialize (Href id Hid). lia.
Qed.

Lemma well_timed_clearTimeout (id : nat) (a : App) :
  well_timed a -> well_timed (clearTimeout id a).
Proof.
  intros [Hids Href]. split; simpl; auto.
  intros t Ht. apply filter_In in Ht. destruct Ht as [Ht _]. auto.
Qed.

Lemma well_timed_stop_finally (a : App) :
  well_timed a -> well_timed (stop_finally a).
Proof.
  intros H. unfold stop_finally. simpl.
  destruct (recordingTimeoutRef (ui a)); [apply well_timed_clearTimeout|]; exact H.
Qed.

Lemma well_timed_stopListening (closure : Render) (env : Env) (a : App) :
  well_timed a -> well_timed (stopListening cfg closure env a).
Proof.
  intros H. unfold stopListening.
  destruct (isListening (voiceState closure)); [|exact H].
  destruct (currentField closure) as [field|]; [|exact H].
  simpl. destruct (VoiceAPI.stopRecording (media a)) as [m1 p]. simpl.
  destruct (nth_error (promises (deliver (stop_events env) m1)) p)
    as [[[e|audioBlob]|]|]; try exact H.
  - apply well_timed_stop_finally. exact H.
  - simpl.
    destruct (VoiceAPI.transcribe cfg (net env) audioBlob
                (preferredVoiceService closure) (requests a)) as [[e|result] log].
    + apply well_timed_stop_finally. exact H.
    + apply well_timed_stop_finally.
      destruct (truthy (VoiceAPI.error result)); [exact H|].
      destruct (truthy (VoiceAPI.text result)); [|exact H].
      apply well_timed_setTimeout.
      unfold setFormData_append.
      destruct (appended _ _); exact H.
Qed.

Lemma well_timed_start_try (closure : Render) (field : Field) (env : Env) (a : App) :
  well_timed a -> well_timed (start_try closure field env a).
Proof.
  intros [Hids Href]. unfold start_try.
  destruct (VoiceAPI.startRecording _ _) as [m [e|u]]; simpl.
  - split; simpl; auto.
  - split; simpl.
    + intros t Ht. apply in_app_iff in Ht. destruct Ht as [Ht|[<-|[]]].
      * specialize (Hids t Ht). lia.
      * simpl. lia.
    + intros id Hid. inversion Hid. lia.
Qed.

Lemma well_timed_start_permitted (closure : Render) (field : Field) (env : Env)
    (a : App) :
  well_timed a -> well_timed (start_permitted closure field env a).
Proof.
  intros H. unfold start_permitted.
  destruct (hasPermission (voiceState closure)).
  - now apply well_timed_start_try.
  - destruct (VoiceAPI.requestMicrophonePermission (probe env) (recorder_defined env) (media a))
      as [m granted].
    destruct granted; [apply well_timed_start_try|]; exact H.
Qed.

Lemma well_timed_startListening (closure : Render) (field : Field)
    (stop_env env : Env) (a : App) :
  well_timed a -> well_timed (startListening cfg closure field stop_env env a).
Proof.
  intros H. unfold startListening.
  destruct (isListening (voiceState closure) && same_field (currentField closure) field).
  - now apply well_timed_stopListening.
  - destruct (isListening (voiceState closure)
              && negb (same_field (currentField closure) field)).
    + destruct (stop_settles closure stop_env a).
      * apply well_timed_start_permitted. now apply well_timed_stopListening.
      * now apply well_timed_stopListening.
    + now apply well_timed_start_permitted.
Qed.

(** Every state the page reaches keeps its timers in order: the
    hypothesis [well_timed] of the theorems on the form holds of all of
    them. *)
Theorem reachable_pages_are_well_timed (inputs : list Input) (a : App) :
  handle_all cfg inputs initial = Some a -> well_timed a.
Proof.
  assert (Hstep : forall i a0 a1, well_timed a0 -> handle cfg i a0 = Some a1 ->
                                  well_timed a1).
  { intros i a0 a1 H0 Hh. destruct i; simpl in Hh.
    - inversion Hh. unfold initializeVoiceAPI.
      destruct (VoiceAPI.requestMicrophonePermission _ _). exact H0.
    - inversion Hh. unfold testMicrophone. simpl.
      destruct (VoiceAPI.requestMicrophonePermission _ _) as [m granted].
      destruct granted; [apply well_timed_setTimeout|]; exact H0.
    - inversion Hh. now apply well_timed_startListening.
    - inversion Hh. now apply well_timed_stopListening.
    - unfold fire_timer in Hh. destruct (pending id a0) as [t|]; [|discriminate].
      inversion Hh.
      pose proof (well_timed_clearTimeout id a0 H0) as Hc.
      destruct (callback t) as [closure|].
      + destruct (isListening (voiceState closure));
          [now apply well_timed_stopListening | exact Hc].
      + exact Hc.
    - destruct (fire ev (media a0)); [|discriminate]. inversion Hh. exact H0.
    - inversion Hh. exact H0.
    - inversion Hh. exact H0.
    - inversion Hh. exact H0. }
  assert (Hrun : forall l a0 a1, well_timed a0 -> handle_all cfg l a0 = Some a1 ->
                                 well_timed a1).
  { induction l as [|i l IH]; simpl; intros a0 a1 H0 Hh.
    - inversion Hh. now subst.
    - destruct (handle cfg i a0) as [a2|] eqn:Hi; [|discriminate].
      eapply IH; [|exact Hh]. eapply Hstep; eauto. }
  apply Hrun. split; simpl; [intros t []|discriminate].
Qed.

End FormStates.

Section FormFields.
Import VoiceIntakeForm.
Context {E : Engine}.
Variable cfg : VoiceAPI.VoiceApiConfig.

Lemma stopListening_other_fields (closure : Render) (env : Env)
    (a : App) (f : Field) :
  currentField closure <> Some f ->
  formData (ui (stopListening cfg closure env a)) f = formData (ui a) f.
Proof.
  intros Hf. unfold stopListening.
  destruct (isListening (voiceState closure)); [|reflexivity].
  destruct (currentField closure) as [field|] eqn:Hfield; [|reflexivity].
  assert (Hne : Field_eqb f field = false).
  { apply Field_eqb_neq. congruence. }
  assert (Hfin : forall x, formData (ui (stop_finally x)) = formData (ui x)).
  { intros x. unfold stop_finally. simpl.
    destruct (recordingTimeoutRef (ui x)); reflexivity. }
  simpl. destruct (VoiceAPI.stopRecording (media a)) as [m1 p]. simpl.
  destruct (nth_error (promises (deliver (stop_events env) m1)) p)
    as [[[e|audioBlob]|]|]; try reflexivity.
  - now rewrite Hfin.
  - simpl.
    destruct (VoiceAPI.transcribe cfg (net env) audioBlob
                (preferredVoiceService closure) (requests a)) as [[e|result] log];
      rewrite Hfin; [reflexivity|].
    destruct (truthy (VoiceAPI.error result)); [reflexivity|].
    destruct (truthy (VoiceAPI.text result)); [|reflexivity].
    simpl. unfold setFormData_append. simpl.
    destruct (appended _ _); simpl; [now rewrite Hne | reflexivity].
Qed.

(** [stopListening] writes to no field but the one of its closure. *)
Theorem stopListening_changes_only_its_field (closure : Render) (env : Env)
    (a : App) (f : Field) :
  currentField closure <> Some f ->
  formData (ui (stopListening cfg closure env a)) f = formData (ui a) f.
Proof. apply stopListening_other_fields. Qed.


(** A [stopListening] that runs to its end leaves the form not
    listening. *)
Lemma stopListening_settled_stops (closure : Render) (env : Env) (a : App)
    (field : Field) :
  isListening (voiceState closure) = true ->
  currentField closure = Some field ->
  stop_settles closure env a = true ->
  isListening (voiceState (current (ui (stopListening cfg closure env a)))) = false.
Proof.
  intros Hl Hf. unfold stop_settles, stopListening. rewrite Hl, Hf. simpl.
  assert (Hcur : forall x, voiceState (current (ui (stop_finally x)))
                           = voiceState (current (ui x))).
  { intros x. unfold stop_finally. simpl.
    destruct (recordingTimeoutRef (ui x)); reflexivity. }
  destruct (VoiceAPI.stopRecording (media a)) as [m1 p]. simpl.
  destruct (nth_error (promises (deliver (stop_events env) m1)) p)
    as [[[e|audioBlob]|]|]; try discriminate; intros _.
  - now rewrite Hcur.
  - simpl.
    destruct (VoiceAPI.transcribe cfg (net env) audioBlob
                (preferredVoiceService closure) (requests a)) as [[e|result] log];
      rewrite Hcur; [reflexivity|].
    destruct (truthy (VoiceAPI.error result)); [reflexivity|].
    destruct (truthy (VoiceAPI.text result)); [|reflexivity].
    simpl. unfold setFormData_append.
    destruct (appended _ _); reflexivity.
Qed.

(** Switching fields while listening: once the running recording has
    been stopped and the new one started, the auto-stop timer of the new
    session closes over the render that listened to the old field.  When
    it fires it runs that render's [stopListening], and what was dictated
    for the new field is not written into the new field. *)
Theorem auto_stop_after_switch_serves_the_old_field (a : App) (old new : Field)
    (stop_env env : Env) :
  well_timed a ->
  isListening (voiceState (current (ui a))) = true ->
  currentField (current (ui a)) = Some old ->
  old <> new ->
  stop_settles (current (ui a)) stop_env a = true ->
  let a' := startListening cfg (current (ui a)) new stop_env env a in
  isListening (voiceState (current (ui a'))) = true ->
  exists id,
    recordingTimeoutRef (ui a') = Some id
    /\ pending id a'
       = Some {| timer_id := id; delay := 30000;
                 callback := AutoStop (current (ui a)) |}
    /\ forall env',
         fire_timer cfg id env' a'
         = Some (stopListening cfg (current (ui a)) env' (clearTimeout id a'))
         /\ formData (ui (stopListening cfg (current (ui a)) env' (clearTimeout id a'))) new
            = formData (ui a') new.
Proof.
  intros Hwt Hl Hold Hne Hsettles a' Hlistening. subst a'.
  assert (Hsame : same_field (currentField (current (ui a))) new = false).
  { rewrite Hold. simpl. now apply Field_eqb_neq. }
  unfold startListening in *. rewrite Hl, Hsame, Hsettles in *. simpl in *.
  pose proof (stopListening_settled_stops (current (ui a)) stop_env a old Hl Hold Hsettles)
    as Hstopped.
  set (closure := current (ui a)) in *.
  set (a1 := stopListening cfg closure stop_env a) in *.
  assert (Hwt1 : well_timed a1) by now apply well_timed_stopListening.
  assert (Hgoal : forall a0,
             well_timed a0 ->
             isListening (voiceState (current (ui (start_try closure new env a0)))) = true ->
             exists id,
               recordingTimeoutRef (ui (start_try closure new env a0)) = Some id
               /\ pending id (start_try closure new env a0)
                  = Some {| timer_id := id; delay := 30000;
                            callback := AutoStop closure |}
               /\ forall env',
                    fire_timer cfg id env' (start_try closure new env a0)
                    = Some (stopListening cfg closure env'
                              (clearTimeout id (start_try closure new env a0)))
                    /\ formData (ui (stopListening cfg closure env'
                                       (clearTimeout id (start_try closure new env a0)))) new
                       = formData (ui (start_try closure new env a0)) new).
  { intros a0 Hwt0 Hl0.
    destruct (start_try_outcome closure new env a0 Hwt0 Hl0) as [Href Hpend].
    exists (next_timer (ui a0)). split; [exact Href|]. split; [exact Hpend|].
    intros env'. split.
    - unfold fire_timer. rewrite Hpend. simpl. now rewrite Hl.
    - rewrite stopListening_other_fields; [reflexivity|].
      rewrite Hold. congruence. }
  unfold start_permitted in *.
  destruct (hasPermission (voiceState closure)).
  - apply Hgoal; auto.
  - destruct (VoiceAPI.requestMicrophonePermission (probe env) (recorder_defined env) (media a1))
      as [m granted] eqn:Hperm.
    destruct granted.
    + apply Hgoal; auto.
    + simpl in Hlistening. congruence.
Qed.

End FormFields.

Lemma reachable_pages_are_well_timed_witness :
  VoiceIntakeForm.well_timed Sample.listening.
Proof.
  apply (reachable_pages_are_well_timed (E := Sample.engine) Sample.both_keys
           [VoiceIntakeForm.Mount Sample.granted;
            VoiceIntakeForm.Edit VoiceIntakeForm.chiefComplaint "Since Monday:";
            VoiceIntakeForm.ClickMic VoiceIntakeForm.chiefComplaint
              Sample.granted Sample.granted]).
  vm_compute. reflexivity.
Defined.

Lemma stopListening_changes_only_its_field_witness :
  VoiceIntakeForm.formData
    (VoiceIntakeForm.ui
       (VoiceIntakeForm.stopListening (E := Sample.engine) Sample.both_keys
          (VoiceIntakeForm.current (VoiceIntakeForm.ui Sample.listening))
          (Sample.stops 0) Sample.listening))
    VoiceIntakeForm.allergies
  = VoiceIntakeForm.formData (VoiceIntakeForm.ui Sample.listening)
      VoiceIntakeForm.allergies.
Proof.
  apply (stopListening_changes_only_its_field (E := Sample.engine)).
  discriminate.
Defined.


(** Listening to the chief complaint, the microphone of the allergies is
    clicked: the first recording is stopped and transcribed, a second one
    starts, and its auto-stop timer belongs to the chief complaint. *)
Lemma auto_stop_after_switch_serves_the_old_field_witness :
  let a' := VoiceIntakeForm.startListening (E := Sample.engine) Sample.both_keys
              (VoiceIntakeForm.current (VoiceIntakeForm.ui Sample.listening))
              VoiceIntakeForm.allergies (Sample.stops 0) Sample.granted
              Sample.listening in
  exists id,
    VoiceIntakeForm.recordingTimeoutRef (VoiceIntakeForm.ui a') = Some id
    /\ VoiceIntakeForm.pending id a'
       = Some {| VoiceIntakeForm.timer_id := id;
                 VoiceIntakeForm.delay := 30000;
                 VoiceIntakeForm.callback :=
                   VoiceIntakeForm.AutoStop
                     (VoiceIntakeForm.current (VoiceIntakeForm.ui Sample.listening)) |}
    /\ forall env',
         VoiceIntakeForm.fire_timer (E := Sample.engine) Sample.both_keys id env' a'
         = Some (VoiceIntakeForm.stopListening (E := Sample.engine) Sample.both_keys
                   (VoiceIntakeForm.current (VoiceIntakeForm.ui Sample.listening)) env'
                   (VoiceIntakeForm.clearTimeout id a'))
         /\ VoiceIntakeForm.formData
              (VoiceIntakeForm.ui
                 (VoiceIntakeForm.stopListening (E := Sample.engine) Sample.both_keys
                    (VoiceIntakeForm.current (VoiceIntakeForm.ui Sample.listening)) env'
                    (VoiceIntakeForm.clearTimeout id a')))
              VoiceIntakeForm.allergies
            = VoiceIntakeForm.formData (VoiceIntakeForm.ui a') VoiceIntakeForm.allergies.
Proof.
  apply (auto_stop_after_switch_serves_the_old_field (E := Sample.engine)
           Sample.both_keys Sample.listening VoiceIntakeForm.chiefComplaint
           VoiceIntakeForm.allergies (Sample.stops 0) Sample.granted).
  - split; simpl.
    + intros t [<-|[]]. simpl. lia.
    + intros id H. inversion H. lia.
  - reflexivity.
  - reflexivity.
  - discriminate.
  - vm_compute. reflexivity.
  - vm_compute. reflexivity.
Defined.
